(** * ReplaySDK: a model of [src/index.ts] and the properties of its
      capture, snapshot and delivery paths.

    The class [ReplaySDK] keeps an in-memory queue of captured events, fills
    it from throttled DOM listeners and from a debounced, sanitized DOM
    snapshot, and empties it once per second through [sendEvents], which
    puts a batch back at the head of the queue when the request fails.

    The embedding is shallow.  The fields of the object are a record, the
    browser tables the object touches (timers, listeners, pending requests,
    console) are a second record, and the methods are written in a small
    state-and-exception monad so that they read like the TypeScript.

    The repository also holds an earlier variant of the class, without
    snapshots, timer, [log] and [stop], whose [captureEvent] calls
    [sendEvents] itself; what is modelled here is [src/index.ts]. *)

From Stdlib Require Import ZArith List String Ascii Bool Lia Permutation.
From Stdlib Require Import Sorted.
Import ListNotations.

Set Warnings "-register-all".

Local Open Scope Z_scope.
Local Open Scope string_scope.
Local Open Scope list_scope.

(* ================================================================= *)
(** ** The document tree seen by [sanitizeDOM] *)

Module Dom.

(** An attribute is a name and a value, in document order. *)
Definition attr : Type := (string * string)%type.

(** An element carries its local name, its attribute list, the value a
    form control holds (what the user typed, or what a script assigned),
    and its child nodes.  The held value is state of the control, kept
    apart from the attributes as the DOM keeps it: serializing an element
    prints its attributes and its children, never the held value.

    A [template] element keeps what is written inside it in a fragment of
    its own, its [content]: the fragment is not among the children, so no
    selector run on the document reaches it, and serializing the element
    prints it. *)
Inductive node : Type :=
| Element (localName : string) (attributes : list attr)
          (value : string) (childNodes : list node)
| Template (attributes : list attr) (content : list node)
| Text (data : string).

(** The children of a [Document] node. *)
Definition document : Type := list node.

(** [doc.documentElement]: the first element child, or [null]. *)
Fixpoint documentElement (d : document) : option node :=
  match d with
  | [] => None
  | Element t a v cs :: _ => Some (Element t a v cs)
  | Template a c :: _ => Some (Template a c)
  | Text _ :: rest => documentElement rest
  end.

(** [el.getAttribute(name)]. *)
Fixpoint getAttribute (name : string) (l : list attr) : option string :=
  match l with
  | [] => None
  | (n, v) :: rest => if n =? name then Some v else getAttribute name rest
  end.

(** [el.setAttribute(name, value)]: the first attribute of that name
    takes the value, and a new attribute is appended when there is none. *)
Fixpoint setAttribute (name value : string) (l : list attr) : list attr :=
  match l with
  | [] => [(name, value)]
  | (n, v) :: rest =>
      if n =? name then (n, value) :: rest
      else (n, v) :: setAttribute name value rest
  end.

(** [el.removeAttribute(name)]: the first attribute of that name goes. *)
Fixpoint removeAttribute (name : string) (l : list attr) : list attr :=
  match l with
  | [] => []
  | a :: rest =>
      if fst a =? name then rest else a :: removeAttribute name rest
  end.

(** [name.startsWith('on')]. *)
Definition is_handler_name (name : string) : bool := prefix "on" name.

Definition lower_ascii (c : ascii) : ascii :=
  let n := nat_of_ascii c in
  if (Nat.leb 65 n && Nat.leb n 90)%bool then ascii_of_nat (n + 32) else c.

Fixpoint toLowerCase (s : string) : string :=
  match s with
  | EmptyString => EmptyString
  | String c rest => String (lower_ascii c) (toLowerCase rest)
  end.

(** The states of the [type] attribute of an [input] element. *)
Definition input_type_keywords : list string :=
  [ "hidden"; "text"; "search"; "tel"; "url"; "email"; "password"; "date";
    "month"; "week"; "time"; "datetime-local"; "number"; "range"; "color";
    "checkbox"; "radio"; "file"; "submit"; "image"; "reset"; "button" ].

(** [el.type] of an [HTMLInputElement]: the keyword of the [type]
    attribute, compared without case, and ["text"] when it is missing or
    unknown. *)
Definition input_type (a : list attr) : string :=
  match getAttribute "type" a with
  | None => "text"
  | Some v =>
      let k := toLowerCase v in
      if existsb (String.eqb k) input_type_keywords then k else "text"
  end.

(** How [el.value] of an [input] is read and written depends on its type
    state.  In mode [OwnValue] the property is the value the control
    holds; in mode [FromAttribute] it is the [value] attribute itself; a
    file control exposes a file name. *)
Inductive value_mode : Type := OwnValue | FromAttribute | FileName.

Definition input_value_mode (type_ : string) : value_mode :=
  if existsb (String.eqb type_)
       [ "hidden"; "submit"; "image"; "reset"; "button"; "checkbox";
         "radio" ]
  then FromAttribute
  else if type_ =? "file" then FileName else OwnValue.

(** [el.value = v] on an [input] with attributes [a] holding [held]: the
    attributes and the held value after the assignment.  Only a control
    in mode [FromAttribute] has its [value] attribute rewritten.  A file
    control takes no value but the empty string, which empties its list
    of files: neither its attributes nor a held value change. *)
Definition assign_value (a : list attr) (held v : string)
  : list attr * string :=
  match input_value_mode (input_type a) with
  | OwnValue => (a, v)
  | FromAttribute => (setAttribute "value" v a, held)
  | FileName => (a, held)
  end.

(** [el.type] for the two interfaces the sanitizer tests with
    [instanceof]: an [input] reports its type state, a [textarea] always
    reports ["textarea"]. *)
Definition el_type (t : string) (a : list attr) : string :=
  if t =? "input" then input_type a else "textarea".

(** *** The three passes of [sanitizeDOM], in source order *)

Definition is_script (n : node) : bool :=
  match n with
  | Element t _ _ _ => t =? "script"
  | Template _ _ => false
  | Text _ => false
  end.

(** [doc.querySelectorAll('script').forEach(el => el.remove())] *)
Fixpoint remove_scripts (n : node) : node :=
  match n with
  | Element t a v cs =>
      Element t a v
        (flat_map (fun c => if is_script c then [] else [remove_scripts c]) cs)
  | Template a c => Template a c
  | Text s => Text s
  end.

Definition remove_scripts_doc (d : document) : document :=
  flat_map (fun c => if is_script c then [] else [remove_scripts c]) d.

(** The inner loop over [Array.from(el.attributes)]: the array is a copy
    taken before the loop, the removals act on the live attribute list. *)
Definition remove_handler_attributes (a : list attr) : list attr :=
  fold_left
    (fun live at_ =>
       if is_handler_name (fst at_) then removeAttribute (fst at_) live
       else live)
    a a.

(** [doc.querySelectorAll('*').forEach(...)] *)
Fixpoint remove_handlers (n : node) : node :=
  match n with
  | Element t a v cs =>
      Element t (remove_handler_attributes a) v (map remove_handlers cs)
  | Template a c => Template (remove_handler_attributes a) c
  | Text s => Text s
  end.

(** The body of the last loop for one element: the selector
    ['input, textarea'] and the [instanceof] test select by element kind,
    then [el.type] decides. *)
Definition is_sensitive (t : string) (a : list attr) : bool :=
  ((t =? "input") || (t =? "textarea"))%bool
  && ((el_type t a =? "password") || (el_type t a =? "hidden"))%bool.

(** [el.value = ''] where the test selects the element.  The test only
    selects [input] elements, a [textarea] reporting the type
    ["textarea"], so the assignment is the one of an [input]. *)
Definition clear_value (t : string) (a : list attr) (held : string)
  : list attr * string :=
  if is_sensitive t a then assign_value a held "" else (a, held).

(** [doc.querySelectorAll('input, textarea').forEach(...)] *)
Fixpoint clear_sensitive (n : node) : node :=
  match n with
  | Element t a v cs =>
      Element t (fst (clear_value t a v)) (snd (clear_value t a v))
              (map clear_sensitive cs)
  | Template a c => Template a c
  | Text s => Text s
  end.

(** The document after the three passes. *)
Definition sanitize (d : document) : document :=
  map clear_sensitive (map remove_handlers (remove_scripts_doc d)).

(** *** Observations on trees, used to state what sanitizing achieves *)

(** [every_element p n]: [p] holds of every element of the subtree, the
    elements a selector run on the document reaches.  A [template]
    counts, what its [content] holds does not. *)
Fixpoint every_element (p : string -> list attr -> string -> bool)
         (n : node) : bool :=
  match n with
  | Element t a v cs => p t a v && forallb (every_element p) cs
  | Template a _ => p "template" a ""
  | Text _ => true
  end.

(** [every_printed_element p n]: [p] holds of every element that
    serializing [n] prints, the content of templates included. *)
Fixpoint every_printed_element (p : string -> list attr -> string -> bool)
         (n : node) : bool :=
  match n with
  | Element t a v cs => p t a v && forallb (every_printed_element p) cs
  | Template a c => p "template" a "" && forallb (every_printed_element p) c
  | Text _ => true
  end.

(** The tree as a serializer sees it: the held values play no part. *)
Fixpoint without_held_values (n : node) : node :=
  match n with
  | Element t a _ cs => Element t a "" (map without_held_values cs)
  | Template a c => Template a (map without_held_values c)
  | Text s => Text s
  end.

(** A serializer prints attributes and children only. *)
Definition prints_no_held_value (serializer : node -> string) : Prop :=
  forall n, serializer n = serializer (without_held_values n).

Definition not_script (t : string) (_ : list attr) (_ : string) : bool :=
  negb (t =? "script").

(** The attributes the second pass is meant to keep. *)
Definition keeps (at_ : attr) : bool := negb (is_handler_name (fst at_)).

Definition no_handler_attribute (_ : string) (a : list attr) (_ : string)
  : bool :=
  forallb keeps a.

(** Occurrences of the name [n] among the attributes [l]. *)
Fixpoint occurrences (n : string) (l : list attr) : nat :=
  match l with
  | [] => O
  | a :: rest =>
      ((if String.eqb (fst a) n then 1 else 0) + occurrences n rest)%nat
  end.

(** What the last pass leaves of a password or hidden [input]: a password
    control holds the empty value, a hidden control has the attribute
    [value] and it is empty. *)
Definition sensitive_value_cleared (t : string) (a : list attr)
           (v : string) : bool :=
  implb ((t =? "input") && (input_type a =? "password"))%bool (v =? "")
  && implb ((t =? "input") && (input_type a =? "hidden"))%bool
       (match getAttribute "value" a with
        | Some x => x =? ""
        | None => false
        end).

(** The values of the elements named [tag], in document order. *)
Fixpoint values_of (tag : string) (n : node) : list string :=
  match n with
  | Element t a v cs =>
      (if t =? tag then [v] else []) ++ flat_map (values_of tag) cs
  | Template _ _ => []
  | Text _ => []
  end.

(** The [value] attribute of each password [input], in document order. *)
Fixpoint password_attributes (n : node) : list (option string) :=
  match n with
  | Element t a _ cs =>
      (if ((t =? "input") && (input_type a =? "password"))%bool
       then [getAttribute "value" a] else [])
      ++ flat_map password_attributes cs
  | Template _ _ => []
  | Text _ => []
  end.

(** What each template holds, in document order. *)
Fixpoint template_contents (n : node) : list (list node) :=
  match n with
  | Element _ _ _ cs => flat_map template_contents cs
  | Template _ c => [c]
  | Text _ => []
  end.

(** The root a parser builds around a body: an empty head comes first. *)
Definition page_of (body : list node) : node :=
  Element "html" [] "" [Element "head" [] "" []; Element "body" [] "" body].

(** A password field as a parser builds it from markup that fills it in,
    [<input type="password" value=...>]: the control holds what the
    attribute says. *)
Definition password_field (secret : string) : node :=
  Element "input" [("type", "password"); ("value", secret)] secret [].

(** The same for [<input type="hidden" value=...>]. *)
Definition hidden_field (v : string) : node :=
  Element "input" [("type", "hidden"); ("value", v)] v [].

End Dom.

Import Dom.

(* ================================================================= *)
(** ** Events, configuration and the fields of the object *)

(** The [data] of an event, one shape per call site of [captureEvent]. *)
Inductive EventPayload : Type :=
| MouseMoveData (x y : Z)
| ClickData (x y : Z) (target : string)
| ScrollData (scrollX scrollY : Z)
| DomSnapshotData (html : string) (width height : Z) (url : string).

Record EventData : Type := {
  type : string;
  data : EventPayload;
  timestamp : Z
}.

(** [SDKConfig].  A JavaScript caller can leave any field out, which the
    constructor then reads as [undefined]. *)
Record SDKConfig : Type := {
  cfg_websiteId : option string;
  cfg_apiEndpoint : option string;
  cfg_debug : option bool
}.

(** The private fields of [ReplaySDK], with the two closure variables of
    [initializeEventListeners]. *)
Record ReplaySDK : Type := {
  events : list EventData;
  websiteId : option string;
  sessionId : string;
  apiEndpoint : option string;
  debug : bool;
  isRunning : bool;
  sendInterval : option Z;
  lastDOMSnapshot : string;
  domSnapshotTimeout : option Z;
  lastMoveTime : Z;
  lastScrollTime : Z
}.

(** What the window and the document answer when they are read.  The
    record describes a document that has a root element; a callback that
    meets a document without one is a turn of its own,
    [TimeoutFiresWithoutRoot], and so is a construction,
    [new_ReplaySDK_without_root]. *)
Record Page : Type := {
  pageHTML : string;          (* document.documentElement.outerHTML *)
  hasBody : bool;             (* document.body is not null *)
  innerWidth : Z;
  innerHeight : Z;
  href : string;
  pageScrollX : Z;
  pageScrollY : Z
}.

(** The body of the POST issued by [sendEvents]. *)
Record Request : Type := {
  rq_url : string;
  rq_method : string;
  rq_sessionId : string;
  rq_websiteId : option string;
  rq_events : list EventData
}.

(** [sendEvents] is [async]: an activation is parked at one of its two
    [await]s with its local [eventsToSend]. *)
Inductive AwaitPoint : Type := AwaitingFetch | AwaitingJson.

Record Suspended : Type := {
  request_id : nat;
  awaiting : AwaitPoint;
  eventsToSend : list EventData
}.

(** How [fetch] settles. *)
Inductive FetchResult : Type :=
| Rejected
| Response (ok : bool) (status : Z).

(** The object together with the browser state it acts on.  The clock and
    the page are moved by the environment between two turns of the event
    loop and stand still during a turn, so that the two readings of
    [Date.now()] in a throttled listener agree.  [captured] and
    [delivered] are history logs kept for the statements only: every event
    ever passed to [captureEvent], and every event of a batch whose
    [sendEvents] activation reached its success branch. *)
Record World : Type := {
  this : ReplaySDK;
  clock : Z;                          (* what Date.now() returns *)
  page : Page;
  intervals : list (Z * Z);           (* live setInterval handles, delay *)
  timeouts : list (Z * Z);            (* pending setTimeout handles, delay *)
  nextHandle : Z;
  listeners : list string;            (* document.addEventListener types *)
  observing : bool;                   (* the MutationObserver is attached *)
  suspended : list Suspended;
  requests : list Request;            (* every fetch call, in issue order *)
  console : list string;
  captured : list EventData;
  delivered : list EventData
}.

(** *** Field updates *)

Definition set_events (v : list EventData) (s : ReplaySDK) : ReplaySDK :=
  {| events := v; websiteId := websiteId s; sessionId := sessionId s;
     apiEndpoint := apiEndpoint s; debug := debug s; isRunning := isRunning s;
     sendInterval := sendInterval s; lastDOMSnapshot := lastDOMSnapshot s;
     domSnapshotTimeout := domSnapshotTimeout s;
     lastMoveTime := lastMoveTime s; lastScrollTime := lastScrollTime s |}.

Definition set_isRunning (v : bool) (s : ReplaySDK) : ReplaySDK :=
  {| events := events s; websiteId := websiteId s; sessionId := sessionId s;
     apiEndpoint := apiEndpoint s; debug := debug s; isRunning := v;
     sendInterval := sendInterval s; lastDOMSnapshot := lastDOMSnapshot s;
     domSnapshotTimeout := domSnapshotTimeout s;
     lastMoveTime := lastMoveTime s; lastScrollTime := lastScrollTime s |}.

Definition set_sendInterval (v : option Z) (s : ReplaySDK) : ReplaySDK :=
  {| events := events s; websiteId := websiteId s; sessionId := sessionId s;
     apiEndpoint := apiEndpoint s; debug := debug s; isRunning := isRunning s;
     sendInterval := v; lastDOMSnapshot := lastDOMSnapshot s;
     domSnapshotTimeout := domSnapshotTimeout s;
     lastMoveTime := lastMoveTime s; lastScrollTime := lastScrollTime s |}.

Definition set_lastDOMSnapshot (v : string) (s : ReplaySDK) : ReplaySDK :=
  {| events := events s; websiteId := websiteId s; sessionId := sessionId s;
     apiEndpoint := apiEndpoint s; debug := debug s; isRunning := isRunning s;
     sendInterval := sendInterval s; lastDOMSnapshot := v;
     domSnapshotTimeout := domSnapshotTimeout s;
     lastMoveTime := lastMoveTime s; lastScrollTime := lastScrollTime s |}.

Definition set_domSnapshotTimeout (v : option Z) (s : ReplaySDK)
  : ReplaySDK :=
  {| events := events s; websiteId := websiteId s; sessionId := sessionId s;
     apiEndpoint := apiEndpoint s; debug := debug s; isRunning := isRunning s;
     sendInterval := sendInterval s; lastDOMSnapshot := lastDOMSnapshot s;
     domSnapshotTimeout := v;
     lastMoveTime := lastMoveTime s; lastScrollTime := lastScrollTime s |}.

Definition set_lastMoveTime (v : Z) (s : ReplaySDK) : ReplaySDK :=
  {| events := events s; websiteId := websiteId s; sessionId := sessionId s;
     apiEndpoint := apiEndpoint s; debug := debug s; isRunning := isRunning s;
     sendInterval := sendInterval s; lastDOMSnapshot := lastDOMSnapshot s;
     domSnapshotTimeout := domSnapshotTimeout s;
     lastMoveTime := v; lastScrollTime := lastScrollTime s |}.

Definition set_lastScrollTime (v : Z) (s : ReplaySDK) : ReplaySDK :=
  {| events := events s; websiteId := websiteId s; sessionId := sessionId s;
     apiEndpoint := apiEndpoint s; debug := debug s; isRunning := isRunning s;
     sendInterval := sendInterval s; lastDOMSnapshot := lastDOMSnapshot s;
     domSnapshotTimeout := domSnapshotTimeout s;
     lastMoveTime := lastMoveTime s; lastScrollTime := v |}.

(** The four assignments at the top of the constructor. *)
Definition set_config (w a : option string) (d : bool) (sid : string)
           (s : ReplaySDK) : ReplaySDK :=
  {| events := events s; websiteId := w; sessionId := sid;
     apiEndpoint := a; debug := d; isRunning := isRunning s;
     sendInterval := sendInterval s; lastDOMSnapshot := lastDOMSnapshot s;
     domSnapshotTimeout := domSnapshotTimeout s;
     lastMoveTime := lastMoveTime s; lastScrollTime := lastScrollTime s |}.

Definition on_this (f : ReplaySDK -> ReplaySDK) (w : World) : World :=
  {| this := f (this w); clock := clock w; page := page w;
     intervals := intervals w; timeouts := timeouts w;
     nextHandle := nextHandle w; listeners := listeners w;
     observing := observing w; suspended := suspended w;
     requests := requests w; console := console w;
     captured := captured w; delivered := delivered w |}.

Definition set_clock (v : Z) (w : World) : World :=
  {| this := this w; clock := v; page := page w;
     intervals := intervals w; timeouts := timeouts w;
     nextHandle := nextHandle w; listeners := listeners w;
     observing := observing w; suspended := suspended w;
     requests := requests w; console := console w;
     captured := captured w; delivered := delivered w |}.

Definition set_page (v : Page) (w : World) : World :=
  {| this := this w; clock := clock w; page := v;
     intervals := intervals w; timeouts := timeouts w;
     nextHandle := nextHandle w; listeners := listeners w;
     observing := observing w; suspended := suspended w;
     requests := requests w; console := console w;
     captured := captured w; delivered := delivered w |}.

Definition set_intervals (v : list (Z * Z)) (w : World) : World :=
  {| this := this w; clock := clock w; page := page w;
     intervals := v; timeouts := timeouts w;
     nextHandle := nextHandle w; listeners := listeners w;
     observing := observing w; suspended := suspended w;
     requests := requests w; console := console w;
     captured := captured w; delivered := delivered w |}.

Definition set_timeouts (v : list (Z * Z)) (w : World) : World :=
  {| this := this w; clock := clock w; page := page w;
     intervals := intervals w; timeouts := v;
     nextHandle := nextHandle w; listeners := listeners w;
     observing := observing w; suspended := suspended w;
     requests := requests w; console := console w;
     captured := captured w; delivered := delivered w |}.

Definition set_nextHandle (v : Z) (w : World) : World :=
  {| this := this w; clock := clock w; page := page w;
     intervals := intervals w; timeouts := timeouts w;
     nextHandle := v; listeners := listeners w;
     observing := observing w; suspended := suspended w;
     requests := requests w; console := console w;
     captured := captured w; delivered := delivered w |}.

Definition set_listeners (v : list string) (w : World) : World :=
  {| this := this w; clock := clock w; page := page w;
     intervals := intervals w; timeouts := timeouts w;
     nextHandle := nextHandle w; listeners := v;
     observing := observing w; suspended := suspended w;
     requests := requests w; console := console w;
     captured := captured w; delivered := delivered w |}.

Definition set_observing (v : bool) (w : World) : World :=
  {| this := this w; clock := clock w; page := page w;
     intervals := intervals w; timeouts := timeouts w;
     nextHandle := nextHandle w; listeners := listeners w;
     observing := v; suspended := suspended w;
     requests := requests w; console := console w;
     captured := captured w; delivered := delivered w |}.

Definition set_suspended (v : list Suspended) (w : World) : World :=
  {| this := this w; clock := clock w; page := page w;
     intervals := intervals w; timeouts := timeouts w;
     nextHandle := nextHandle w; listeners := listeners w;
     observing := observing w; suspended := v;
     requests := requests w; console := console w;
     captured := captured w; delivered := delivered w |}.

Definition set_requests (v : list Request) (w : World) : World :=
  {| this := this w; clock := clock w; page := page w;
     intervals := intervals w; timeouts := timeouts w;
     nextHandle := nextHandle w; listeners := listeners w;
     observing := observing w; suspended := suspended w;
     requests := v; console := console w;
     captured := captured w; delivered := delivered w |}.

Definition set_console (v : list string) (w : World) : World :=
  {| this := this w; clock := clock w; page := page w;
     intervals := intervals w; timeouts := timeouts w;
     nextHandle := nextHandle w; listeners := listeners w;
     observing := observing w; suspended := suspended w;
     requests := requests w; console := v;
     captured := captured w; delivered := delivered w |}.

Definition set_captured (v : list EventData) (w : World) : World :=
  {| this := this w; clock := clock w; page := page w;
     intervals := intervals w; timeouts := timeouts w;
     nextHandle := nextHandle w; listeners := listeners w;
     observing := observing w; suspended := suspended w;
     requests := requests w; console := console w;
     captured := v; delivered := delivered w |}.

Definition set_delivered (v : list EventData) (w : World) : World :=
  {| this := this w; clock := clock w; page := page w;
     intervals := intervals w; timeouts := timeouts w;
     nextHandle := nextHandle w; listeners := listeners w;
     observing := observing w; suspended := suspended w;
     requests := requests w; console := console w;
     captured := captured w; delivered := v |}.

(* ================================================================= *)
(** ** A monad for methods: state, and exceptions that keep the state *)

Inductive completion (A : Type) : Type :=
| Normal (a : A)
| Throw (e : string).
Arguments Normal {A} a.
Arguments Throw {A} e.

Definition M (A : Type) : Type := World -> completion A * World.

Definition ret {A : Type} (a : A) : M A := fun w => (Normal a, w).

Definition bind {A B : Type} (m : M A) (k : A -> M B) : M B :=
  fun w =>
    match m w with
    | (Normal a, w') => k a w'
    | (Throw e, w') => (Throw e, w')
    end.

Definition throw {A : Type} (e : string) : M A := fun w => (Throw e, w).

(** [try { body } catch (error) { handler }] *)
Definition try_catch {A : Type} (body : M A) (handler : string -> M A)
  : M A :=
  fun w =>
    match body w with
    | (Normal a, w') => (Normal a, w')
    | (Throw e, w') => handler e w'
    end.

Definition gets {A : Type} (f : World -> A) : M A :=
  fun w => (Normal (f w), w).

Definition modify (f : World -> World) : M unit :=
  fun w => (Normal tt, f w).

Definition lift {A : Type} (c : completion A) : M A := fun w => (c, w).

Declare Scope method_scope.
Delimit Scope method_scope with method.
Notation "x <- m ;; k" := (bind m (fun x => k))
  (at level 61, m at next level, right associativity) : method_scope.
Notation "m ;; k" := (bind m (fun _ => k))
  (at level 61, right associativity) : method_scope.
Local Open Scope method_scope.

(** A value used as a condition: [undefined], [null] and [0] are falsy. *)
Definition truthy (h : option Z) : bool :=
  match h with
  | Some n => negb (Z.eqb n 0)
  | None => false
  end.

(* ================================================================= *)
(** ** The browser calls the class makes *)

(** [Date.now()] reads the clock of the browser.  The clock moves between
    turns of the event loop ([Tick]) and it can move while a callback runs:
    two readings taken in one callback need not agree. *)
Definition Date_now : M Z := gets clock.

(** Time passing inside a callback: the clock has reached [t] when it is
    read next; [None] when the callback is faster than the clock. *)
Definition clock_reaches (t : option Z) : M unit :=
  match t with
  | Some v => modify (set_clock v)
  | None => ret tt
  end.

(** [document.documentElement.outerHTML] of the live document.  The
    document of a page can be left without a root element (a script
    removed it, or replaced the document by an empty one): then
    [document.documentElement] is [null] and the read raises. *)
Definition documentElement_outerHTML (rooted : bool) : M string :=
  if rooted then gets (fun w => pageHTML (page w))
  else throw "TypeError: Cannot read properties of null (reading 'outerHTML')".

Definition setInterval (delay : Z) : M Z :=
  h <- gets nextHandle;;
  modify (fun w => set_nextHandle (h + 1)
                     (set_intervals (intervals w ++ [(h, delay)]) w));;
  ret h.

Definition drop_handle (h : Z) (l : list (Z * Z)) : list (Z * Z) :=
  filter (fun e => negb (Z.eqb (fst e) h)) l.

Definition clearInterval (h : option Z) : M unit :=
  match h with
  | Some n => modify (fun w => set_intervals (drop_handle n (intervals w)) w)
  | None => ret tt
  end.

Definition setTimeout (delay : Z) : M Z :=
  h <- gets nextHandle;;
  modify (fun w => set_nextHandle (h + 1)
                     (set_timeouts (timeouts w ++ [(h, delay)]) w));;
  ret h.

Definition clearTimeout (h : option Z) : M unit :=
  match h with
  | Some n => modify (fun w => set_timeouts (drop_handle n (timeouts w)) w)
  | None => ret tt
  end.

Definition addEventListener (type_ : string) : M unit :=
  modify (fun w => set_listeners (listeners w ++ [type_]) w).

(** [observer.observe(document.body, ...)], a [TypeError] without a body. *)
Definition observe : M unit :=
  p <- gets page;;
  if hasBody p then modify (set_observing true)
  else throw "TypeError: parameter 1 is not of type 'Node'".

(** [n.toString(36)] for an integer. *)
Definition digit36 (d : Z) : ascii :=
  nth (Z.to_nat d)
      (list_ascii_of_string "0123456789abcdefghijklmnopqrstuvwxyz") "0"%char.

Fixpoint digits36 (fuel : nat) (n : Z) (acc : string) : string :=
  match fuel with
  | O => acc
  | S fuel' =>
      if (n <? 36)%Z then String (digit36 n) acc
      else digits36 fuel' (n / 36) (String (digit36 (n mod 36)) acc)
  end.

Definition toString36 (n : Z) : string :=
  if (n <? 0)%Z
  then ("-" ++ digits36 (S (Z.to_nat (Z.log2 (- n)))) (- n) "")%string
  else digits36 (S (Z.to_nat (Z.log2 n))) n "".

(** [config.debug || false]. *)
Definition or_false (d : option bool) : bool :=
  match d with
  | Some true => true
  | _ => false
  end.

(** How a template literal prints a possibly missing string. *)
Definition template_text (s : option string) : string :=
  match s with
  | Some v => v
  | None => "undefined"
  end.

(* ================================================================= *)
(** ** The methods of [ReplaySDK] *)

Section Methods.

(** The two browser functions [sanitizeDOM] goes through, for HTML text:
    [new DOMParser().parseFromString(html, 'text/html')] and the
    [outerHTML] serializer.  An HTML parser accepts every text; [None]
    stands for a call that raises, so that what is proved of the methods
    holds of any parser put in its place. *)
Variable parseFromString : string -> option document.
Variable outerHTML : node -> string.

(** [log]: one console line when [debug] is set. *)
Definition log (message : string) : M unit :=
  modify (fun w =>
    set_console
      (if debug (this w)
       then console w ++ [("[ReplaySDK] " ++ message)%string]
       else console w)
      w).

(** [generateSessionId]; [rnd] is [Math.random().toString(36)]. *)
Definition generateSessionId (rnd : string) : M string :=
  now <- Date_now;;
  ret (substring 2 (String.length rnd - 2) rnd ++ toString36 now)%string.

(** [captureEvent]: the push is the whole effect on the object. *)
Definition captureEvent (type_ : string) (data_ : EventPayload) : M unit :=
  now <- Date_now;;
  let event := {| type := type_; data := data_; timestamp := now |} in
  modify (fun w => set_captured (captured w ++ [event])
                     (on_this (fun s => set_events (events s ++ [event]) s)
                              w));;
  log "Event captured:".

(** [sanitizeDOM]: parse, run the three passes, serialize the root. *)
Definition sanitizeDOM (html : string) : completion string :=
  match parseFromString html with
  | None => Throw "DOMParser.parseFromString"
  | Some doc =>
      match documentElement (sanitize doc) with
      | None => Throw "TypeError: doc.documentElement is null"
      | Some root => Normal (outerHTML root)
      end
  end.

(** The arrow function handed to [setTimeout] in [handleDOMMutation];
    [rooted] tells whether the live document has a root element when the
    timer fires.  Nothing in the function catches an exception. *)
Definition domSnapshotCallback_on (rooted : bool) : M unit :=
  html <- documentElement_outerHTML rooted;;
  currentDOM <- lift (sanitizeDOM html);;
  last <- gets (fun w => lastDOMSnapshot (this w));;
  if negb (currentDOM =? last) then
    p <- gets page;;
    captureEvent "domSnapshot"
      (DomSnapshotData currentDOM (innerWidth p) (innerHeight p) (href p));;
    modify (on_this (set_lastDOMSnapshot currentDOM))
  else ret tt.

Definition domSnapshotCallback : M unit := domSnapshotCallback_on true.

Definition handleDOMMutation : M unit :=
  t <- gets (fun w => domSnapshotTimeout (this w));;
  (if truthy t then clearTimeout t else ret tt);;
  h <- setTimeout 1000;;
  modify (on_this (set_domSnapshotTimeout (Some h))).

(** [captureInitialState]; [rooted] tells whether the document has a root
    element when the object is constructed. *)
Definition captureInitialState_on (rooted : bool) : M unit :=
  text <- documentElement_outerHTML rooted;;
  html <- lift (sanitizeDOM text);;
  p <- gets page;;
  captureEvent "domSnapshot"
    (DomSnapshotData html (innerWidth p) (innerHeight p) (href p));;
  p' <- gets page;;
  captureEvent "scroll" (ScrollData (pageScrollX p') (pageScrollY p'));;
  observe.

Definition captureInitialState : M unit := captureInitialState_on true.

(** The three listeners installed by [initializeEventListeners].

    The move and the scroll listener read the clock themselves, for the
    throttle, and [captureEvent] reads it again, for the timestamp;
    [passing] is what the clock has reached between the two readings. *)
Definition onMouseMove_while (passing : option Z) (clientX clientY : Z)
  : M unit :=
  now <- Date_now;;
  last <- gets (fun w => lastMoveTime (this w));;
  if (now - last >? 50)%Z then
    clock_reaches passing;;
    captureEvent "mouseMove" (MouseMoveData clientX clientY);;
    modify (on_this (set_lastMoveTime now))
  else ret tt.

Definition onMouseMove (clientX clientY : Z) : M unit :=
  onMouseMove_while None clientX clientY.

(** [tagName] is [e.target.tagName]: the target of a click is an element
    but for an event dispatched on the document or the window, which has
    no [tagName]; then [.toLowerCase()] raises while the argument of
    [captureEvent] is built. *)
Definition onClick (clientX clientY : Z) (tagName : option string)
  : M unit :=
  match tagName with
  | Some t =>
      captureEvent "click" (ClickData clientX clientY (toLowerCase t))
  | None =>
      throw "TypeError: Cannot read properties of undefined (reading 'toLowerCase')"
  end.

Definition onScroll_while (passing : option Z) : M unit :=
  now <- Date_now;;
  last <- gets (fun w => lastScrollTime (this w));;
  if (now - last >? 100)%Z then
    clock_reaches passing;;
    p <- gets page;;
    captureEvent "scroll" (ScrollData (pageScrollX p) (pageScrollY p));;
    modify (on_this (set_lastScrollTime now))
  else ret tt.

Definition onScroll : M unit := onScroll_while None.

Definition initializeEventListeners : M unit :=
  log "Initializing event listeners";;
  modify (on_this (set_lastMoveTime 0));;
  addEventListener "mousemove";;
  addEventListener "click";;
  modify (on_this (set_lastScrollTime 0));;
  addEventListener "scroll";;
  log "Event listeners initialized".

Definition startEventSending : M unit :=
  modify (on_this (set_isRunning true));;
  h <- setInterval 1000;;
  modify (on_this (set_sendInterval (Some h)));;
  log "Event sending started".

(** [fetch]: the request leaves, the caller is parked on the promise. *)
Definition fetch (rq : Request) (batch : list EventData) : M unit :=
  modify (fun w =>
    set_suspended
      (suspended w ++ [{| request_id := List.length (requests w);
                          awaiting := AwaitingFetch;
                          eventsToSend := batch |}])
      (set_requests (requests w ++ [rq]) w)).

(** [sendEvents] up to its first [await]. *)
Definition sendEvents : M unit :=
  evs <- gets (fun w => events (this w));;
  if Nat.eqb (List.length evs) 0 then ret tt
  else
    let batch := evs in
    modify (on_this (set_events []));;
    log "Sending events:";;
    s <- gets this;;
    fetch {| rq_url := (template_text (apiEndpoint s) ++ "/api/events")%string;
             rq_method := "POST";
             rq_sessionId := sessionId s;
             rq_websiteId := websiteId s;
             rq_events := batch |}
          batch.

(** The [catch] block of [sendEvents]. *)
Definition sendEvents_catch (batch : list EventData) (error : string)
  : M unit :=
  log "Failed to send events:";;
  modify (on_this (fun s => set_events (batch ++ events s) s)).

(** [sendEvents] from the settling of [fetch] to [await response.json()]. *)
Definition sendEvents_afterFetch (act : Suspended) (r : FetchResult)
  : M unit :=
  try_catch
    (match r with
     | Rejected => throw "TypeError: Failed to fetch"
     | Response ok status =>
         (if negb ok then throw "HTTP error! status" else ret tt);;
         modify (fun w =>
           set_suspended
             (suspended w ++ [{| request_id := request_id act;
                                 awaiting := AwaitingJson;
                                 eventsToSend := eventsToSend act |}]) w)
     end)
    (sendEvents_catch (eventsToSend act)).

(** [sendEvents] from the settling of [response.json()] to its end. *)
Definition sendEvents_afterJson (act : Suspended) (parsed : bool)
  : M unit :=
  try_catch
    ((if parsed then ret tt
      else throw "SyntaxError: Unexpected token in JSON");;
     log "Events sent successfully:";;
     modify (fun w => set_delivered (delivered w ++ eventsToSend act) w))
    (sendEvents_catch (eventsToSend act)).

Definition stop : M unit :=
  modify (on_this (set_isRunning false));;
  i <- gets (fun w => sendInterval (this w));;
  (if truthy i then clearInterval i else ret tt);;
  log "Session recording stopped".

Definition set_sessionId (sid : string) (s : ReplaySDK) : ReplaySDK :=
  set_config (websiteId s) (apiEndpoint s) (debug s) sid s.

Definition constructor_on (rooted : bool) (config : SDKConfig)
           (rnd : string) : M unit :=
  modify (on_this (fun s =>
    set_config (cfg_websiteId config) (cfg_apiEndpoint config)
               (or_false (cfg_debug config)) (sessionId s) s));;
  sid <- generateSessionId rnd;;
  modify (on_this (set_sessionId sid));;
  initializeEventListeners;;
  startEventSending;;
  captureInitialState_on rooted.

Definition constructor (config : SDKConfig) (rnd : string) : M unit :=
  constructor_on true config rnd.

(** The object as its field initializers leave it, in a browser that has
    handed out no timer yet. *)
Definition fresh (now : Z) (p : Page) : World :=
  {| this := {| events := []; websiteId := None; sessionId := "";
                apiEndpoint := None; debug := false; isRunning := false;
                sendInterval := None; lastDOMSnapshot := "";
                domSnapshotTimeout := None;
                lastMoveTime := 0; lastScrollTime := 0 |};
     clock := now; page := p; intervals := []; timeouts := [];
     nextHandle := 1; listeners := []; observing := false;
     suspended := []; requests := []; console := [];
     captured := []; delivered := [] |}.

(** [new ReplaySDK(config)]. *)
Definition new_ReplaySDK (config : SDKConfig) (rnd : string) (now : Z)
           (p : Page) : completion unit * World :=
  constructor config rnd (fresh now p).

(** [new ReplaySDK(config)] on a document without a root element. *)
Definition new_ReplaySDK_without_root (config : SDKConfig) (rnd : string)
           (now : Z) (p : Page) : completion unit * World :=
  constructor_on false config rnd (fresh now p).

(* =============================================================== *)
(** ** The event loop *)

(** What can happen to a constructed object: the environment moves (clock,
    page), a signal or a timer calls back into the object, a promise
    settles, or the host calls [stop].

    [MouseMove], [Scroll], [Click] and [TimeoutFires] are the turns in
    which the callback meets nothing unusual: the clock stands still while
    it runs, the target of the click is an element, the document has a
    root.  The turns where it does meet it are
    - [MouseMoveLate] and [ScrollLate]: the clock has reached [stamp]
      when [captureEvent] reads it;
    - [ClickOutside]: the target of the click has no [tagName];
    - [TimeoutFiresWithoutRoot]: the debounce timer fires on a document
      without a root element. *)
Inductive Action : Type :=
| Tick (t : Z)
| PageChange (p : Page)
| MouseMove (clientX clientY : Z)
| Click (clientX clientY : Z) (tagName : string)
| Scroll
| Mutation
| TimeoutFires (h : Z)
| IntervalFires (h : Z)
| FetchSettles (id : nat) (r : FetchResult)
| JsonSettles (id : nat) (parsed : bool)
| Stop
| MouseMoveLate (clientX clientY stamp : Z)
| ScrollLate (stamp : Z)
| ClickOutside (clientX clientY : Z)
| TimeoutFiresWithoutRoot (h : Z).

Definition listens (type_ : string) (w : World) : bool :=
  existsb (String.eqb type_) (listeners w).

Definition has_handle (h : Z) (l : list (Z * Z)) : bool :=
  existsb (fun e => Z.eqb (fst e) h) l.

Definition await_eqb (a b : AwaitPoint) : bool :=
  match a, b with
  | AwaitingFetch, AwaitingFetch => true
  | AwaitingJson, AwaitingJson => true
  | _, _ => false
  end.

(** The activation parked at [p] for request [id], and the others. *)
Fixpoint take_suspended (id : nat) (p : AwaitPoint) (l : list Suspended)
  : option (Suspended * list Suspended) :=
  match l with
  | [] => None
  | a :: rest =>
      if (Nat.eqb (request_id a) id && await_eqb (awaiting a) p)%bool
      then Some (a, rest)
      else match take_suspended id p rest with
           | Some (x, rest') => Some (x, a :: rest')
           | None => None
           end
  end.

(** One turn of the event loop. *)
Definition fire (a : Action) : M unit :=
  match a with
  | Tick t => modify (set_clock t)
  | PageChange p => modify (set_page p)
  | MouseMove x y =>
      on <- gets (listens "mousemove");;
      if on then onMouseMove x y else ret tt
  | Click x y tagName =>
      on <- gets (listens "click");;
      if on then onClick x y (Some tagName) else ret tt
  | ClickOutside x y =>
      on <- gets (listens "click");;
      if on then onClick x y None else ret tt
  | MouseMoveLate x y stamp =>
      on <- gets (listens "mousemove");;
      if on then onMouseMove_while (Some stamp) x y else ret tt
  | ScrollLate stamp =>
      on <- gets (listens "scroll");;
      if on then onScroll_while (Some stamp) else ret tt
  | TimeoutFiresWithoutRoot h =>
      pending <- gets (fun w => has_handle h (timeouts w));;
      if pending then
        modify (fun w => set_timeouts (drop_handle h (timeouts w)) w);;
        domSnapshotCallback_on false
      else ret tt
  | Scroll =>
      on <- gets (listens "scroll");;
      if on then onScroll else ret tt
  | Mutation =>
      on <- gets observing;;
      if on then handleDOMMutation else ret tt
  | TimeoutFires h =>
      pending <- gets (fun w => has_handle h (timeouts w));;
      if pending then
        modify (fun w => set_timeouts (drop_handle h (timeouts w)) w);;
        domSnapshotCallback
      else ret tt
  | IntervalFires h =>
      live <- gets (fun w => has_handle h (intervals w));;
      if live then sendEvents else ret tt
  | FetchSettles id r =>
      parked <- gets (fun w => take_suspended id AwaitingFetch (suspended w));;
      match parked with
      | Some (act, rest) =>
          modify (set_suspended rest);;
          sendEvents_afterFetch act r
      | None => ret tt
      end
  | JsonSettles id parsed =>
      parked <- gets (fun w => take_suspended id AwaitingJson (suspended w));;
      match parked with
      | Some (act, rest) =>
          modify (set_suspended rest);;
          sendEvents_afterJson act parsed
      | None => ret tt
      end
  | Stop => stop
  end.

(** The world after one turn: an exception that leaves a callback is
    reported by the browser and the loop goes on. *)
Definition after (a : Action) (w : World) : World := snd (fire a w).

Fixpoint run (acts : list Action) (w : World) : World :=
  match acts with
  | [] => w
  | a :: rest => run rest (after a w)
  end.

End Methods.

(* ================================================================= *)
(** ** Vocabulary of the statements *)

(** The events held by parked [sendEvents] activations, oldest first. *)
Definition in_flight (w : World) : list EventData :=
  List.concat (map eventsToSend (suspended w)).

(** Every captured event is, in capture order, delivered, or in flight, or
    still queued. *)
Definition in_capture_order (w : World) : Prop :=
  captured w = delivered w ++ in_flight w ++ events (this w).

(** The same up to order: nothing lost, nothing twice. *)
Definition conserved (w : World) : Prop :=
  Permutation (captured w) (delivered w ++ in_flight w ++ events (this w)).

(** What has been delivered is an initial segment of what was captured. *)
Definition delivered_in_capture_order (w : World) : Prop :=
  exists rest, captured w = delivered w ++ rest.

Definition of_type (ty : string) (e : EventData) : bool := type e =? ty.

Definition in_window (start width : Z) (e : EventData) : bool :=
  ((start <=? timestamp e)%Z && (timestamp e <=? start + width)%Z)%bool.

Definition EventData_eq_dec (a b : EventData) : {a = b} + {a <> b}.
Proof.
  decide equality; try apply Z.eq_dec; try apply string_dec.
  decide equality; try apply Z.eq_dec; try apply string_dec.
Defined.

(** The reading [t] falls in the closed window of [width] ms from
    [start]. *)
Definition within (start width t : Z) : bool :=
  ((start <=? t) && (t <=? start + width))%Z.

(** The clock stands still while the callback of the turn runs. *)
Definition clock_stands (a : Action) : bool :=
  match a with
  | MouseMoveLate _ _ _ | ScrollLate _ => false
  | _ => true
  end.

(** How many events of type [ty] in [l] carry a timestamp in the closed
    window [start, start + width]. *)
Definition count_in_window (ty : string) (start width : Z)
           (l : list EventData) : nat :=
  List.length (filter (fun e => (of_type ty e && in_window start width e)%bool) l).

Definition is_snapshot_of (html : string) (e : EventData) : bool :=
  match data e with
  | DomSnapshotData h _ _ _ => ((type e =? "domSnapshot") && (h =? html))%bool
  | _ => false
  end.

(** How many [domSnapshot] events in [l] carry the markup [html]. *)
Definition count_snapshots (html : string) (l : list EventData) : nat :=
  List.length (filter (is_snapshot_of html) l).

(** Every parked activation holds a batch that is not empty and that is
    the body of the request it is named after, and no two are named after
    the same request. *)
Definition parked_ok (w : World) : Prop :=
  NoDup (map request_id (suspended w))
  /\ forall s, In s (suspended w) ->
               eventsToSend s <> []
               /\ exists rq, nth_error (requests w) (request_id s) = Some rq
                             /\ rq_events rq = eventsToSend s.

(** The only live interval is the one kept in [sendInterval]. *)
Definition owned_timer (w : World) : Prop :=
  forall e, In e (intervals w) ->
            sendInterval (this w) = Some (fst e) /\ fst e <> 0.

(** Two worlds that differ at most in what the console shows. *)
Definition same_but_console (w w' : World) : Prop :=
  w' = set_console (console w') w.

(** The events the listeners build. *)
Definition move_event (x y now : Z) : EventData :=
  {| type := "mouseMove"; data := MouseMoveData x y; timestamp := now |}.

Definition click_event (x y : Z) (tagName : string) (now : Z) : EventData :=
  {| type := "click"; data := ClickData x y (toLowerCase tagName);
     timestamp := now |}.

(** The two events of [captureInitialState]; the snapshot path and the
    scroll listener build the same ones. *)
Definition snapshot_event (html : string) (now : Z) (p : Page) : EventData :=
  {| type := "domSnapshot";
     data := DomSnapshotData html (innerWidth p) (innerHeight p) (href p);
     timestamp := now |}.

Definition scroll_event (now : Z) (p : Page) : EventData :=
  {| type := "scroll";
     data := ScrollData (pageScrollX p) (pageScrollY p);
     timestamp := now |}.

(** The shape of the world the constructor leaves, whether it returns or
    throws on the way: everything up to [startEventSending] is done, the
    queue holds [evs], the observer is attached or not, and the console
    shows [lines] when [debug] is set. *)
Definition constructed (cfg : SDKConfig) (rnd : string) (now : Z) (p : Page)
           (evs : list EventData) (attached : bool) (lines : list string)
  : World :=
  {| this := {| events := evs;
                websiteId := cfg_websiteId cfg;
                sessionId :=
                  (substring 2 (String.length rnd - 2) rnd
                   ++ toString36 now)%string;
                apiEndpoint := cfg_apiEndpoint cfg;
                debug := or_false (cfg_debug cfg);
                isRunning := true;
                sendInterval := Some 1;
                lastDOMSnapshot := "";
                domSnapshotTimeout := None;
                lastMoveTime := 0;
                lastScrollTime := 0 |};
     clock := now; page := p;
     intervals := [(1, 1000)]; timeouts := []; nextHandle := 2;
     listeners := ["mousemove"; "click"; "scroll"];
     observing := attached;
     suspended := []; requests := [];
     console := if or_false (cfg_debug cfg) then lines else [];
     captured := evs; delivered := [] |}.

Definition startup_lines : list string :=
  [ "[ReplaySDK] Initializing event listeners";
    "[ReplaySDK] Event listeners initialized";
    "[ReplaySDK] Event sending started" ].

Definition capture_line : string := "[ReplaySDK] Event captured:".

(** At most one debounce timer is pending, and it is the one the object
    remembers in [domSnapshotTimeout]. *)
Definition one_pending_snapshot (w : World) : Prop :=
  0 < nextHandle w
  /\ (timeouts w = []
      \/ exists h, timeouts w = [(h, 1000)]
                   /\ domSnapshotTimeout (this w) = Some h /\ h <> 0).

(** [rq] is what [sendEvents] posts for the object [s]: its endpoint, its
    identifiers and a batch that is not empty. *)
Definition well_formed_request (s : ReplaySDK) (rq : Request) : Prop :=
  rq_url rq = (template_text (apiEndpoint s) ++ "/api/events")%string
  /\ rq_method rq = "POST"
  /\ rq_sessionId rq = sessionId s
  /\ rq_websiteId rq = websiteId s
  /\ rq_events rq <> [].

(** Every request issued so far is well formed and made of captured
    events. *)
Definition requests_ok (w : World) : Prop :=
  forall rq, In rq (requests w) ->
             well_formed_request (this w) rq
             /\ incl (rq_events rq) (captured w).

(** Every event counted as delivered is in the body of a request that was
    issued. *)
Definition delivered_was_sent (w : World) : Prop :=
  forall e, In e (delivered w) ->
            exists rq, In rq (requests w) /\ In e (rq_events rq).

Section Vocabulary.

Variable parseFromString : string -> option document.
Variable outerHTML : node -> string.

(** The events captured while [acts] ran from [w]. *)
Definition captured_during (acts : list Action) (w : World)
  : list EventData :=
  skipn (List.length (captured w))
        (captured (run parseFromString outerHTML acts w)).

(** The turn [a] from [w] captures an event of type [ty]. *)
Definition captures (ty : string) (a : Action) (w : World) : bool :=
  existsb (of_type ty) (captured_during [a] w).

(** The readings of the clock at which the turns of [acts] that capture an
    event of type [ty] begin.  A listener reads the clock first thing:
    for the events of a throttled listener these are the values of its
    [now] in the calls that got through, the readings the throttle
    compares. *)
Fixpoint accepted_at (ty : string) (acts : list Action) (w : World)
  : list Z :=
  match acts with
  | [] => []
  | a :: rest =>
      (if captures ty a w then [clock w] else [])
      ++ accepted_at ty rest (after parseFromString outerHTML a w)
  end.

(** [html] is what the serializer gives for the root of a sanitized
    document. *)
Definition sanitized_output (html : string) : Prop :=
  exists markup doc root,
    parseFromString markup = Some doc
    /\ documentElement (sanitize doc) = Some root
    /\ html = outerHTML root.

(** Every snapshot in the capture log carries a sanitized text. *)
Definition snapshots_sanitized (w : World) : Prop :=
  forall e html width height url,
    In e (captured w) ->
    data e = DomSnapshotData html width height url ->
    sanitized_output html.

(** The turn [a] starts a send from [w]: a live interval fires on a
    queue that holds something. *)
Definition starts_send (a : Action) (w : World) : bool :=
  match a with
  | IntervalFires h =>
      (has_handle h (intervals w)
       && negb (Nat.eqb (List.length (events (this w))) 0))%bool
  | _ => false
  end.

(** No send starts while another one is parked. *)
Fixpoint one_send_at_a_time (acts : list Action) (w : World) : bool :=
  match acts with
  | [] => true
  | a :: rest =>
      ((negb (starts_send a w)
        || Nat.eqb (List.length (suspended w)) 0)
       && one_send_at_a_time rest (after parseFromString outerHTML a w))%bool
  end.

(** Along [acts], the clock is never set to an earlier reading, neither
    between turns nor while a listener runs. *)
Fixpoint clock_never_goes_back (acts : list Action) (w : World) : bool :=
  match acts with
  | [] => true
  | a :: rest =>
      ((match a with
        | Tick t => (clock w <=? t)%Z
        | MouseMoveLate _ _ stamp => (clock w <=? stamp)%Z
        | ScrollLate stamp => (clock w <=? stamp)%Z
        | _ => true
        end)
       && clock_never_goes_back rest (after parseFromString outerHTML a w))%bool
  end.

End Vocabulary.

(* ================================================================= *)
(** ** A small browser to run the model in *)

Module Demo.

Definition markup : string :=
  "<html><body onload=boot()><script>x</script><input type=PASSWORD></body></html>".

(** The tree of [markup], with a typed-in password. *)
Definition doc : document :=
  [Element "html" [] ""
     [Element "body"
        [("onload", "boot()"); ("class", "c"); ("onload", "again()")] ""
        [Element "script" [] "" [Text "x"];
         Element "input" [("type", "PASSWORD"); ("onchange", "f()")]
                 "secret" [];
         Element "textarea" [("type", "hidden")] "keep" []]]].

(** A login form whose password field is filled in by the markup. *)
Definition login_markup : string :=
  "<html><head></head><body><input type=password value=secret></body></html>".

Definition login_doc : document := [page_of [password_field "secret"]].

(** A page that keeps a script and an element with a handler inside a
    [template]. *)
Definition template_markup : string :=
  "<html><head></head><body><template><script>x</script><img onerror=f()></template></body></html>".

Definition stowed : list node :=
  [Element "script" [] "" [Text "x"];
   Element "img" [("onerror", "f()")] "" []].

Definition template_doc : document := [page_of [Template [] stowed]].

(** A form with a hidden field that has no [value] attribute: nothing for
    the sanitizer to remove, and yet it comes out with [value] set. *)
Definition hidden_doc : document :=
  [page_of [Element "input" [("type", "hidden")] "" []]].

(** A parser that knows the markups above.  As an HTML parser does, it
    accepts every text: it builds the root, head and body the text leaves
    out, and puts any other text in the body. *)
Definition parse (h : string) : option document :=
  if h =? markup then Some doc
  else if h =? login_markup then Some login_doc
  else if h =? template_markup then Some template_doc
  else Some [Element "html" [] ""
               [Element "head" [] "" [];
                Element "body" [] "" (if h =? "" then [] else [Text h])]].

Definition print_attributes (a : list attr) : string :=
  String.concat ""
    (map (fun at_ => (" " ++ fst at_ ++ "=" ++ snd at_)%string) a).

(** A serializer: it prints names, attributes, children and the content
    of templates. *)
Fixpoint serialize (n : node) : string :=
  match n with
  | Text s => s
  | Element t a v cs =>
      ("<" ++ t ++ print_attributes a
       ++ ">" ++ String.concat "" (map serialize cs)
       ++ "</" ++ t ++ ">")%string
  | Template a c =>
      ("<template" ++ print_attributes a
       ++ ">" ++ String.concat "" (map serialize c)
       ++ "</template>")%string
  end.

Definition the_page : Page :=
  {| pageHTML := markup; hasBody := true; innerWidth := 800;
     innerHeight := 600; href := "https://example.test/";
     pageScrollX := 0; pageScrollY := 0 |}.

(** The login form as the page. *)
Definition login_page : Page :=
  {| pageHTML := login_markup; hasBody := true; innerWidth := 800;
     innerHeight := 600; href := "https://example.test/login";
     pageScrollX := 0; pageScrollY := 0 |}.

Definition config : SDKConfig :=
  {| cfg_websiteId := Some "site"; cfg_apiEndpoint := Some "https://c.test";
     cfg_debug := None |}.

(** A configuration without [websiteId]. *)
Definition config_without_site : SDKConfig :=
  {| cfg_websiteId := None; cfg_apiEndpoint := Some "https://c.test";
     cfg_debug := None |}.

Definition start_time : Z := 1700000000000.

(** The world right after [new ReplaySDK(config)]. *)
Abbreviation started :=
  (snd (new_ReplaySDK parse serialize config "0.abcdef" start_time the_page)).

Abbreviation play := (run parse serialize).

(** Two sends overlap and both fail: the interval fires, a click is
    captured, the interval fires again before the first request has
    settled, then both requests are rejected, first the older one. *)
Definition overlapping_sends : list Action :=
  [ IntervalFires 1; Click 1 2 "BUTTON"; IntervalFires 1;
    FetchSettles 0 Rejected; FetchSettles 1 Rejected;
    IntervalFires 1; FetchSettles 2 (Response true 200);
    JsonSettles 2 true ].

(** What [sanitizeDOM] returns on [markup]. *)
Definition sanitized_markup : string :=
  "<html><body class=c><input type=PASSWORD></input><textarea type=hidden></textarea></body></html>".

(** What [sanitizeDOM] returns on [login_markup] and on
    [template_markup]. *)
Definition login_snapshot : string :=
  "<html><head></head><body><input type=password value=secret></input></body></html>".

Definition template_snapshot : string :=
  "<html><head></head><body><template><script>x</script><img onerror=f()></img></template></body></html>".

(** The started world once its queue has been sent and acknowledged. *)
Definition drained : World :=
  play [ IntervalFires 1; FetchSettles 0 (Response true 200);
         JsonSettles 0 true ] started.

(** The first send has been answered with status 200 and waits for the
    body. *)
Definition awaiting_body : list Action :=
  [ IntervalFires 1; FetchSettles 0 (Response true 200) ].

Definition first_batch : Suspended :=
  {| request_id := 0; awaiting := AwaitingJson;
     eventsToSend := events (this started) |}.

(** A mutation has been reported and its debounce timer, handle 2, is
    pending. *)
Definition before_snapshot : World := play [ Mutation ] started.

(** The same on the login form. *)
Definition before_login_snapshot : World :=
  play [ PageChange login_page; Mutation ] started.

(** A document the sanitizer has nothing to do on: its hidden field has
    an empty [value] attribute already. *)
Definition clean_doc : document :=
  [Element "html" [] ""
     [Element "body" [("class", "c")] ""
        [Element "input" [("type", "text")] "typed" [];
         hidden_field ""; Text "hello"]]].

(** A page without a body yet. *)
Definition page_without_body : Page :=
  {| pageHTML := markup; hasBody := false; innerWidth := 800;
     innerHeight := 600; href := "https://example.test/";
     pageScrollX := 0; pageScrollY := 0 |}.

(** Two pointer moves get through, 51 ms apart on the clock the listener
    reads; the first one is stamped 1 ms late.  A scroll and a click
    follow. *)
Definition with_a_late_stamp : list Action :=
  [ Tick 1700000000100; MouseMoveLate 3 4 1700000000101;
    Tick 1700000000151; MouseMove 5 6; MouseMove 7 8;
    ScrollLate 1700000000160; Click 1 2 "BUTTON" ].

(** The clock advances, a pointer moves twice, a click follows. *)
Definition with_ticks : list Action :=
  [ Tick 1700000000100; MouseMove 3 4; Tick 1700000000200; MouseMove 5 6;
    Click 1 2 "BUTTON" ].

(** A first send that is acknowledged. *)
Definition acknowledged_send : list Action :=
  [ IntervalFires 1; FetchSettles 0 (Response true 200); JsonSettles 0 true ].

(** The request of the first send. *)
Definition first_request : Request :=
  {| rq_url := "https://c.test/api/events";
     rq_method := "POST";
     rq_sessionId := "abcdefloyw3v28";
     rq_websiteId := Some "site";
     rq_events := [ snapshot_event sanitized_markup start_time the_page;
                    scroll_event start_time the_page ] |}.

(** One failed send with a capture during the attempt, then a successful
    one. *)
Definition retry_once : list Action :=
  [ IntervalFires 1; Click 1 2 "BUTTON"; FetchSettles 0 Rejected;
    Click 3 4 "A"; IntervalFires 1; FetchSettles 1 (Response true 200);
    JsonSettles 1 true ].

End Demo.

(* ================================================================= *)
(** ** The earlier variant of the class *)

(** The variant has no timer and no snapshots: every [captureEvent] ends
    with a call of [sendEvents], whose promise nobody awaits, and
    [sendEvents] looks neither at the status nor at the body of the
    response.  It uses the fields [events], [websiteId], [sessionId],
    [apiEndpoint] and the two throttle marks of the same record. *)
Module Earlier.

(** [console.error], which no flag guards. *)
Definition console_error (message : string) : M unit :=
  modify (fun w => set_console (console w ++ [message]) w).

(** [sendEvents] up to its [await]. *)
Definition sendEvents : M unit :=
  evs <- gets (fun w => events (this w));;
  if Nat.eqb (List.length evs) 0 then ret tt
  else
    let batch := evs in
    modify (on_this (set_events []));;
    s <- gets this;;
    fetch {| rq_url := (template_text (apiEndpoint s) ++ "/api/events")%string;
             rq_method := "POST";
             rq_sessionId := sessionId s;
             rq_websiteId := websiteId s;
             rq_events := batch |}
          batch.

(** [sendEvents] from the settling of [fetch] on: a response of any status
    ends the [try] block, a rejection runs the [catch] block. *)
Definition sendEvents_afterFetch (act : Suspended) (r : FetchResult)
  : M unit :=
  try_catch
    (match r with
     | Rejected => throw "TypeError: Failed to fetch"
     | Response _ _ =>
         modify (fun w => set_delivered (delivered w ++ eventsToSend act) w)
     end)
    (fun error =>
       modify (on_this (fun s => set_events (eventsToSend act ++ events s) s));;
       console_error "Failed to send events: ").

Definition captureEvent (type_ : string) (data_ : EventPayload) : M unit :=
  now <- Date_now;;
  let event := {| type := type_; data := data_; timestamp := now |} in
  modify (fun w => set_captured (captured w ++ [event])
                     (on_this (fun s => set_events (events s ++ [event]) s)
                              w));;
  sendEvents.

Definition onMouseMove (clientX clientY : Z) : M unit :=
  now <- Date_now;;
  last <- gets (fun w => lastMoveTime (this w));;
  if (now - last >? 50)%Z then
    captureEvent "mouseMove" (MouseMoveData clientX clientY);;
    modify (on_this (set_lastMoveTime now))
  else ret tt.

Definition onClick (clientX clientY : Z) (tagName : string) : M unit :=
  captureEvent "click" (ClickData clientX clientY (toLowerCase tagName)).

Definition onScroll : M unit :=
  now <- Date_now;;
  last <- gets (fun w => lastScrollTime (this w));;
  if (now - last >? 100)%Z then
    p <- gets page;;
    captureEvent "scroll" (ScrollData (pageScrollX p) (pageScrollY p));;
    modify (on_this (set_lastScrollTime now))
  else ret tt.

Definition initializeEventListeners : M unit :=
  modify (on_this (set_lastMoveTime 0));;
  addEventListener "mousemove";;
  addEventListener "click";;
  modify (on_this (set_lastScrollTime 0));;
  addEventListener "scroll".

Definition constructor (websiteId_ apiEndpoint_ : option string)
           (rnd : string) : M unit :=
  modify (on_this (fun s =>
    set_config websiteId_ apiEndpoint_ (debug s) (sessionId s) s));;
  sid <- generateSessionId rnd;;
  modify (on_this (set_sessionId sid));;
  initializeEventListeners.

(** What can happen to an object of the variant. *)
Inductive Action : Type :=
| Tick (t : Z)
| PageChange (p : Page)
| MouseMove (clientX clientY : Z)
| Click (clientX clientY : Z) (tagName : string)
| Scroll
| FetchSettles (id : nat) (r : FetchResult).

Definition fire (a : Action) : M unit :=
  match a with
  | Tick t => modify (set_clock t)
  | PageChange p => modify (set_page p)
  | MouseMove x y =>
      on <- gets (listens "mousemove");;
      if on then onMouseMove x y else ret tt
  | Click x y tagName =>
      on <- gets (listens "click");;
      if on then onClick x y tagName else ret tt
  | Scroll =>
      on <- gets (listens "scroll");;
      if on then onScroll else ret tt
  | FetchSettles id r =>
      parked <- gets (fun w => take_suspended id AwaitingFetch (suspended w));;
      match parked with
      | Some (act, rest) =>
          modify (set_suspended rest);;
          sendEvents_afterFetch act r
      | None => ret tt
      end
  end.

Definition after (a : Action) (w : World) : World := snd (fire a w).

Fixpoint run (acts : list Action) (w : World) : World :=
  match acts with
  | [] => w
  | a :: rest => run rest (after a w)
  end.

(** [new ReplaySDK(config)] of the variant. *)
Definition new_ReplaySDK (websiteId_ apiEndpoint_ : option string)
           (rnd : string) (now : Z) (p : Page) : World :=
  snd (constructor websiteId_ apiEndpoint_ rnd (fresh now p)).

End Earlier.

(** The variant in the small browser: constructed, then one click. *)
Module EarlierDemo.

Definition clicked : World :=
  Earlier.run [Earlier.Click 1 2 "BUTTON"]
    (Earlier.new_ReplaySDK (Some "site") (Some "https://c.test") "0.abcdef"
       Demo.start_time Demo.the_page).

Definition batch : Suspended :=
  {| request_id := 0; awaiting := AwaitingFetch;
     eventsToSend := [click_event 1 2 "BUTTON" Demo.start_time] |}.

End EarlierDemo.

(* ================================================================= *)
(** * Properties *)

(* ================================================================= *)
(** ** The sanitizer *)

Module DomFacts.

(** Induction on a tree, with the hypothesis for every child. *)
Lemma node_forall_ind (P : node -> Prop) :
  (forall s, P (Text s)) ->
  (forall t a v cs, Forall P cs -> P (Element t a v cs)) ->
  (forall a c, Forall P c -> P (Template a c)) ->
  forall n, P n.
Proof.
  intros HText HElement HTemplate.
  fix IH 1.
  intros [t a v cs | a c | s].
  - apply HElement.
    induction cs as [| c cs IHcs]; constructor; [apply IH | exact IHcs].
  - apply HTemplate.
    induction c as [| x c IHc]; constructor; [apply IH | exact IHc].
  - apply HText.
Qed.

Lemma forallb_map_ext {A B : Type} (p : B -> bool) (f : A -> B) (l : list A) :
  Forall (fun x => p (f x) = true) l -> forallb p (map f l) = true.
Proof.
  induction 1 as [| x l Hx _ IH]; simpl; [reflexivity |].
  now rewrite Hx, IH.
Qed.

(** *** Pass 1: no [script] element is left *)

Lemma keep_non_scripts (cs : list node) :
  Forall (fun c => is_script c = false ->
                   every_element not_script (remove_scripts c) = true) cs ->
  forallb (every_element not_script)
          (flat_map (fun c => if is_script c then [] else [remove_scripts c])
                    cs) = true.
Proof.
  induction 1 as [| c cs Hc _ IH]; simpl; [reflexivity |].
  destruct (is_script c) eqn:E; simpl; [exact IH |].
  now rewrite Hc, IH.
Qed.

Lemma remove_scripts_spec (n : node) :
  is_script n = false -> every_element not_script (remove_scripts n) = true.
Proof.
  induction n as [s | t a v cs IH | a c _] using node_forall_ind; intros Hn.
  - reflexivity.
  - simpl in *. unfold not_script at 1. rewrite Hn. simpl.
    now apply keep_non_scripts.
  - reflexivity.
Qed.

Lemma remove_scripts_doc_spec (d : document) :
  forallb (every_element not_script) (remove_scripts_doc d) = true.
Proof.
  apply keep_non_scripts.
  apply Forall_forall. intros c _. apply remove_scripts_spec.
Qed.

(** *** Pass 2: the attribute loop is a filter *)

Lemma filter_removeAttribute (n : string) (l : list attr) :
  is_handler_name n = true ->
  filter keeps (removeAttribute n l) = filter keeps l.
Proof.
  intros Hn. induction l as [| a l IH]; simpl; [reflexivity |].
  destruct (fst a =? n) eqn:E.
  - apply String.eqb_eq in E. unfold keeps at 2. now rewrite E, Hn.
  - simpl. now rewrite IH.
Qed.

Lemma occurrences_removeAttribute_same (n : string) (l : list attr) :
  occurrences n (removeAttribute n l) = Nat.pred (occurrences n l).
Proof.
  induction l as [| a l IH]; simpl; [reflexivity |].
  destruct (fst a =? n) eqn:E; simpl; [reflexivity |].
  now rewrite E.
Qed.

Lemma occurrences_removeAttribute_other (n m : string) (l : list attr) :
  n <> m -> occurrences n (removeAttribute m l) = occurrences n l.
Proof.
  intros Hnm. induction l as [| a l IH]; simpl; [reflexivity |].
  destruct (fst a =? m) eqn:E; simpl.
  - apply String.eqb_eq in E.
    destruct (fst a =? n) eqn:E'; [| reflexivity].
    apply String.eqb_eq in E'. congruence.
  - now rewrite IH.
Qed.

Lemma no_occurrence_filter (l : list attr) :
  (forall n, is_handler_name n = true -> occurrences n l = O) ->
  filter keeps l = l.
Proof.
  induction l as [| a l IH]; intros H; simpl; [reflexivity |].
  unfold keeps at 1.
  destruct (is_handler_name (fst a)) eqn:E; simpl.
  - specialize (H _ E). simpl in H. rewrite String.eqb_refl in H. discriminate.
  - f_equal. apply IH. intros n Hn. specialize (H n Hn). simpl in H. lia.
Qed.

(** The loop, started on a copy [snapshot] with [live] attributes left:
    as long as every handler name is met in the copy at least as often as
    it is left, the loop ends on the filtered list. *)
Lemma attribute_loop (snapshot live : list attr) :
  (forall n, is_handler_name n = true ->
             (occurrences n live <= occurrences n snapshot)%nat) ->
  fold_left
    (fun cur at_ =>
       if is_handler_name (fst at_) then removeAttribute (fst at_) cur
       else cur)
    snapshot live
  = filter keeps live.
Proof.
  revert live.
  induction snapshot as [| a snapshot IH]; intros live H; simpl.
  - symmetry. apply no_occurrence_filter.
    intros n Hn. specialize (H n Hn). simpl in H. lia.
  - destruct (is_handler_name (fst a)) eqn:E.
    + rewrite IH.
      * now apply filter_removeAttribute.
      * intros n Hn. specialize (H n Hn). simpl in H.
        destruct (fst a =? n) eqn:En.
        -- apply String.eqb_eq in En. subst n.
           rewrite occurrences_removeAttribute_same. lia.
        -- rewrite occurrences_removeAttribute_other; [lia |].
           intros ->. now rewrite String.eqb_refl in En.
    + apply IH. intros n Hn. specialize (H n Hn). simpl in H.
      destruct (fst a =? n) eqn:En; [| lia].
      apply String.eqb_eq in En. congruence.
Qed.

Lemma remove_handler_attributes_filter (a : list attr) :
  remove_handler_attributes a = filter keeps a.
Proof. apply attribute_loop. intros; lia. Qed.

Lemma remove_handler_attributes_clean (a : list attr) :
  forallb keeps (remove_handler_attributes a) = true.
Proof.
  rewrite remove_handler_attributes_filter.
  apply forallb_forall. intros x Hx. now apply filter_In in Hx.
Qed.

(** The pass leaves the [type] of an element alone. *)
Lemma input_type_kept (a : list attr) :
  input_type (remove_handler_attributes a) = input_type a.
Proof.
  rewrite remove_handler_attributes_filter. unfold input_type.
  replace (getAttribute "type" (filter keeps a)) with (getAttribute "type" a);
    [reflexivity |].
  induction a as [| [n v] a IH]; simpl; [reflexivity |].
  unfold keeps at 1. simpl.
  destruct (is_handler_name n) eqn:E; simpl.
  - destruct (n =? "type") eqn:En; [| exact IH].
    apply String.eqb_eq in En. subst n. discriminate.
  - destruct (n =? "type"); [reflexivity | exact IH].
Qed.

Lemma remove_handlers_spec (n : node) :
  every_element no_handler_attribute (remove_handlers n) = true.
Proof.
  induction n as [s | t a v cs IH | a c _] using node_forall_ind; simpl.
  - reflexivity.
  - unfold no_handler_attribute at 1.
    rewrite remove_handler_attributes_clean. simpl.
    now apply forallb_map_ext.
  - unfold no_handler_attribute. apply remove_handler_attributes_clean.
Qed.

Lemma remove_handlers_keeps_tags (n : node) :
  every_element not_script (remove_handlers n)
  = every_element not_script n.
Proof.
  induction n as [s | t a v cs IH | a c _] using node_forall_ind; simpl.
  - reflexivity.
  - f_equal. induction IH as [| c cs Hc _ IHcs]; simpl; [reflexivity |].
    now rewrite Hc, IHcs.
  - reflexivity.
Qed.

(** *** Pass 3: sensitive values are emptied, nothing else moves *)

Lemma getAttribute_setAttribute_other (n name v : string) (a : list attr) :
  n <> name ->
  getAttribute n (setAttribute name v a) = getAttribute n a.
Proof.
  intros Hn. induction a as [| [m x] a IH]; simpl.
  - destruct (name =? n) eqn:E; [| reflexivity].
    apply String.eqb_eq in E. congruence.
  - destruct (m =? name) eqn:E; simpl.
    + apply String.eqb_eq in E. subst m.
      destruct (name =? n) eqn:E'; [| reflexivity].
      apply String.eqb_eq in E'. congruence.
    + now rewrite IH.
Qed.

Lemma getAttribute_setAttribute_same (name v : string) (a : list attr) :
  getAttribute name (setAttribute name v a) = Some v.
Proof.
  induction a as [| [m x] a IH]; simpl.
  - now rewrite String.eqb_refl.
  - destruct (m =? name) eqn:E; simpl; now rewrite E.
Qed.

Lemma setAttribute_present (name v : string) (a : list attr) :
  getAttribute name a = Some v -> setAttribute name v a = a.
Proof.
  induction a as [| [m x] a IH]; simpl; [discriminate |].
  destruct (m =? name) eqn:E.
  - now intros [= ->].
  - intros H. now rewrite (IH H).
Qed.

Lemma keeps_setAttribute (name v : string) (a : list attr) :
  is_handler_name name = false ->
  forallb keeps (setAttribute name v a) = forallb keeps a.
Proof.
  intros Hn. induction a as [| [m x] a IH]; simpl.
  - unfold keeps. simpl. now rewrite Hn.
  - destruct (m =? name) eqn:E; simpl; [reflexivity |].
    now rewrite IH.
Qed.

Lemma input_type_setAttribute_value (v : string) (a : list attr) :
  input_type (setAttribute "value" v a) = input_type a.
Proof.
  unfold input_type.
  now rewrite getAttribute_setAttribute_other by discriminate.
Qed.

(** The assignment as the last pass makes it: an emptied held value for a
    password control, an empty [value] attribute for a hidden one. *)
Lemma clear_value_password (a : list attr) (v : string) :
  input_type a = "password" -> clear_value "input" a v = (a, "").
Proof.
  intros H. unfold clear_value, is_sensitive, el_type, assign_value.
  change ("input" =? "input") with true. cbv iota. now rewrite H.
Qed.

Lemma clear_value_hidden (a : list attr) (v : string) :
  input_type a = "hidden" ->
  clear_value "input" a v = (setAttribute "value" "" a, v).
Proof.
  intros H. unfold clear_value, is_sensitive, el_type, assign_value.
  change ("input" =? "input") with true. cbv iota. now rewrite H.
Qed.

Lemma clear_value_other (t : string) (a : list attr) (v : string) :
  is_sensitive t a = false -> clear_value t a v = (a, v).
Proof. intros H. unfold clear_value. now rewrite H. Qed.

(** The three cases of the test of the last pass. *)
Lemma sensitive_cases (t : string) (a : list attr) :
  (t = "input" /\ input_type a = "password")
  \/ (t = "input" /\ input_type a = "hidden")
  \/ (is_sensitive t a = false
      /\ ((t =? "input") && (input_type a =? "password"))%bool = false
      /\ ((t =? "input") && (input_type a =? "hidden"))%bool = false).
Proof.
  unfold is_sensitive, el_type.
  destruct (t =? "input") eqn:Et.
  - apply String.eqb_eq in Et.
    destruct (input_type a =? "password") eqn:Ep.
    + left. apply String.eqb_eq in Ep. now split.
    + destruct (input_type a =? "hidden") eqn:Eh.
      * right; left. apply String.eqb_eq in Eh. now split.
      * right; right.
        destruct (t =? "textarea"); now repeat split.
  - right; right. cbv iota.
    destruct (t =? "textarea"), ("textarea" =? "password") eqn:E1,
      ("textarea" =? "hidden") eqn:E2; try discriminate; now repeat split.
Qed.

Lemma clear_value_keeps_type (t : string) (a : list attr) (v : string) :
  input_type (fst (clear_value t a v)) = input_type a.
Proof.
  destruct (sensitive_cases t a) as [[-> H] | [[-> H] | [H _]]].
  - now rewrite clear_value_password.
  - rewrite clear_value_hidden by exact H. simpl.
    apply input_type_setAttribute_value.
  - now rewrite clear_value_other.
Qed.

Lemma clear_value_keeps_clean (t : string) (a : list attr) (v : string) :
  forallb keeps (fst (clear_value t a v)) = forallb keeps a.
Proof.
  destruct (sensitive_cases t a) as [[-> H] | [[-> H] | [H _]]].
  - now rewrite clear_value_password.
  - rewrite clear_value_hidden by exact H. simpl.
    now apply keeps_setAttribute.
  - now rewrite clear_value_other.
Qed.

Lemma clear_sensitive_keeps_tags (n : node) :
  every_element not_script (clear_sensitive n)
  = every_element not_script n.
Proof.
  induction n as [s | t a v cs IH | a c _] using node_forall_ind; simpl.
  - reflexivity.
  - f_equal. induction IH as [| c cs Hc _ IHcs]; simpl; [reflexivity |].
    now rewrite Hc, IHcs.
  - reflexivity.
Qed.

Lemma clear_sensitive_keeps_attributes (n : node) :
  every_element no_handler_attribute (clear_sensitive n)
  = every_element no_handler_attribute n.
Proof.
  induction n as [s | t a v cs IH | a c _] using node_forall_ind; simpl.
  - reflexivity.
  - unfold no_handler_attribute at 1 3.
    rewrite clear_value_keeps_clean. f_equal.
    induction IH as [| c cs Hc _ IHcs]; simpl; [reflexivity |].
    now rewrite Hc, IHcs.
  - reflexivity.
Qed.

Lemma clear_sensitive_spec (n : node) :
  every_element sensitive_value_cleared (clear_sensitive n) = true.
Proof.
  induction n as [s | t a v cs IH | a c _] using node_forall_ind; simpl.
  - reflexivity.
  - rewrite (forallb_map_ext _ _ _ IH), andb_true_r.
    unfold sensitive_value_cleared. rewrite clear_value_keeps_type.
    destruct (sensitive_cases t a) as [[-> H] | [[-> H] | [H [Hp Hh]]]].
    + rewrite clear_value_password by exact H. now rewrite H.
    + rewrite clear_value_hidden by exact H. simpl fst.
      rewrite getAttribute_setAttribute_same. now rewrite H.
    + now rewrite Hp, Hh.
  - reflexivity.
Qed.

Lemma forallb_map_eq {A : Type} (p : A -> bool) (f : A -> A) (l : list A) :
  (forall x, p (f x) = p x) -> forallb p (map f l) = forallb p l.
Proof.
  intros H. induction l as [| x l IH]; simpl; [reflexivity |].
  now rewrite H, IH.
Qed.

Lemma sanitize_no_script (d : document) :
  forallb (every_element not_script) (sanitize d) = true.
Proof.
  unfold sanitize.
  rewrite (forallb_map_eq _ _ _ clear_sensitive_keeps_tags).
  rewrite (forallb_map_eq _ _ _ remove_handlers_keeps_tags).
  apply remove_scripts_doc_spec.
Qed.

Lemma sanitize_no_handler (d : document) :
  forallb (every_element no_handler_attribute) (sanitize d) = true.
Proof.
  unfold sanitize.
  rewrite (forallb_map_eq _ _ _ clear_sensitive_keeps_attributes).
  apply forallb_map_ext, Forall_forall. intros n _.
  apply remove_handlers_spec.
Qed.

Lemma sanitize_clears_values (d : document) :
  forallb (every_element sensitive_value_cleared) (sanitize d) = true.
Proof.
  unfold sanitize.
  apply forallb_map_ext, Forall_forall. intros n _.
  apply clear_sensitive_spec.
Qed.

(** *** What no pass touches *)

Lemma getAttribute_kept (name : string) (a : list attr) :
  is_handler_name name = false ->
  getAttribute name (remove_handler_attributes a) = getAttribute name a.
Proof.
  intros Hn. rewrite remove_handler_attributes_filter.
  induction a as [| [n v] a IH]; simpl; [reflexivity |].
  unfold keeps at 1. simpl.
  destruct (is_handler_name n) eqn:E; simpl.
  - destruct (n =? name) eqn:En; [| exact IH].
    apply String.eqb_eq in En. congruence.
  - destruct (n =? name); [reflexivity | exact IH].
Qed.

Lemma flat_map_map_ext {B : Type} (g : node -> list B) (f : node -> node)
      (d : list node) :
  Forall (fun n => g (f n) = g n) d ->
  flat_map g (map f d) = flat_map g d.
Proof.
  induction 1 as [| n d Hn _ IH]; simpl; [reflexivity |].
  now rewrite Hn, IH.
Qed.

Lemma password_attributes_remove_handlers (n : node) :
  password_attributes (remove_handlers n) = password_attributes n.
Proof.
  induction n as [s | t a v cs IH | a c _] using node_forall_ind; simpl.
  - reflexivity.
  - rewrite input_type_kept, getAttribute_kept by reflexivity.
    f_equal. now apply flat_map_map_ext.
  - reflexivity.
Qed.

Lemma password_attributes_clear_sensitive (n : node) :
  password_attributes (clear_sensitive n) = password_attributes n.
Proof.
  induction n as [s | t a v cs IH | a c _] using node_forall_ind; simpl.
  - reflexivity.
  - rewrite clear_value_keeps_type. f_equal; [| now apply flat_map_map_ext].
    destruct (sensitive_cases t a) as [[-> H] | [[-> H] | [H [Hp Hh]]]].
    + now rewrite clear_value_password.
    + rewrite H. reflexivity.
    + now rewrite Hp.
  - reflexivity.
Qed.

Lemma template_contents_remove_handlers (n : node) :
  template_contents (remove_handlers n) = template_contents n.
Proof.
  induction n as [s | t a v cs IH | a c _] using node_forall_ind; simpl.
  - reflexivity.
  - now apply flat_map_map_ext.
  - reflexivity.
Qed.

Lemma template_contents_clear_sensitive (n : node) :
  template_contents (clear_sensitive n) = template_contents n.
Proof.
  induction n as [s | t a v cs IH | a c _] using node_forall_ind; simpl.
  - reflexivity.
  - now apply flat_map_map_ext.
  - reflexivity.
Qed.

Lemma sanitize_keeps_password_attributes (d : document) :
  flat_map password_attributes (sanitize d)
  = flat_map password_attributes (remove_scripts_doc d).
Proof.
  unfold sanitize.
  rewrite flat_map_map_ext
    by (apply Forall_forall; intros n _;
        apply password_attributes_clear_sensitive).
  apply flat_map_map_ext, Forall_forall. intros n _.
  apply password_attributes_remove_handlers.
Qed.

Lemma sanitize_keeps_template_contents (d : document) :
  flat_map template_contents (sanitize d)
  = flat_map template_contents (remove_scripts_doc d).
Proof.
  unfold sanitize.
  rewrite flat_map_map_ext
    by (apply Forall_forall; intros n _;
        apply template_contents_clear_sensitive).
  apply flat_map_map_ext, Forall_forall. intros n _.
  apply template_contents_remove_handlers.
Qed.

End DomFacts.

(* ================================================================= *)
(** ** One turn of the event loop, field by field *)

Arguments toString36 : simpl never.
Arguments substring : simpl never.
Arguments String.append : simpl never.
Arguments has_handle : simpl never.
Arguments listens : simpl never.
Arguments drop_handle : simpl never.

(** Unfold the methods down to the world they return. *)
Ltac unfold_methods :=
  unfold new_ReplaySDK, new_ReplaySDK_without_root, constructor,
    constructor_on, generateSessionId, initializeEventListeners,
    startEventSending, captureInitialState, captureInitialState_on,
    after, fire, onMouseMove, onMouseMove_while, onClick, onScroll,
    onScroll_while, clock_reaches, handleDOMMutation, domSnapshotCallback,
    domSnapshotCallback_on, documentElement_outerHTML, sendEvents,
    sendEvents_afterFetch,
    sendEvents_afterJson, sendEvents_catch, stop, captureEvent, log, fetch,
    addEventListener, observe, setTimeout, clearTimeout, setInterval,
    clearInterval, Date_now, try_catch, bind, ret, gets, modify, throw, lift.

(** Split on the innermost condition the goal is stuck on. *)
Ltac break_match :=
  match goal with
  | |- context [match ?x with _ => _ end] =>
      lazymatch x with
      | context [match _ with _ => _ end] => fail
      | _ => destruct x eqn:?
      end
  end.

(** Reuse what is already known of the [debug] flag. *)
Ltac use_debug :=
  repeat match goal with
         | H : debug (this ?w) = _ |- context [debug (this ?w)] =>
             rewrite H; cbn
         end.

Ltac step := unfold_methods; cbn; repeat (break_match; cbn; use_debug).

Section Properties.

Variable parseFromString : string -> option document.
Variable outerHTML : node -> string.

Local Abbreviation sanitizeDOM' := (sanitizeDOM parseFromString outerHTML).
Local Abbreviation after' := (after parseFromString outerHTML).
Local Abbreviation fire' := (fire parseFromString outerHTML).
Local Abbreviation run' := (run parseFromString outerHTML).
Local Abbreviation new' := (new_ReplaySDK parseFromString outerHTML).
Local Abbreviation during' := (captured_during parseFromString outerHTML).

Lemma run_app (acts1 acts2 : list Action) (w : World) :
  run' (acts1 ++ acts2) w = run' acts2 (run' acts1 w).
Proof.
  revert w. induction acts1 as [| a acts1 IH]; intros w; simpl;
    [reflexivity | apply IH].
Qed.

(** A property kept by every turn holds along every run. *)
Lemma run_invariant (I : World -> Prop) :
  (forall a w, I w -> I (after' a w)) ->
  forall acts w, I w -> I (run' acts w).
Proof.
  intros Hstep acts. induction acts as [| a acts IH]; intros w Hw; simpl;
    [exact Hw | apply IH, Hstep, Hw].
Qed.

Lemma listeners_after (a : Action) (w : World) :
  listeners (after' a w) = listeners w.
Proof. destruct a; step; reflexivity. Qed.

Lemma observing_after (a : Action) (w : World) :
  observing (after' a w) = observing w.
Proof. destruct a; step; congruence. Qed.

Lemma listeners_run (acts : list Action) (w : World) :
  listeners (run' acts w) = listeners w.
Proof.
  apply (run_invariant (fun x => listeners x = listeners w));
    [intros a x Hx; now rewrite listeners_after | reflexivity].
Qed.

Lemma observing_run (acts : list Action) (w : World) :
  observing (run' acts w) = observing w.
Proof.
  apply (run_invariant (fun x => observing x = observing w));
    [intros a x Hx; now rewrite observing_after | reflexivity].
Qed.

Lemma listens_run (ty : string) (acts : list Action) (w : World) :
  listens ty (run' acts w) = listens ty w.
Proof. unfold listens. now rewrite listeners_run. Qed.

(** Only [stop] touches the interval table, and it only removes. *)
Lemma intervals_after (a : Action) (w : World) :
  intervals (after' a w) = intervals w
  \/ exists h, a = Stop /\ sendInterval (this w) = Some h /\ h <> 0
               /\ intervals (after' a w) = drop_handle h (intervals w).
Proof.
  destruct a; step; auto.
  all: right;
    match goal with H : sendInterval _ = Some ?z |- _ => exists z end;
    repeat split; auto.
  all: intros ->; discriminate.
Qed.

Lemma sendInterval_after (a : Action) (w : World) :
  sendInterval (this (after' a w)) = sendInterval (this w).
Proof. destruct a; step; congruence. Qed.

Lemma skipn_length_app {A : Type} (l x : list A) :
  skipn (List.length l) (l ++ x) = x.
Proof.
  rewrite skipn_app, skipn_all, Nat.sub_diag. reflexivity.
Qed.

(** The capture log only grows, by at most one event a turn. *)
Lemma captured_after (a : Action) (w : World) :
  captured (after' a w) = captured w ++ during' [a] w.
Proof.
  unfold captured_during.
  change (run' [a] w) with (after' a w).
  assert (H : exists news, captured (after' a w) = captured w ++ news).
  { destruct a; step;
      solve [ exists []; now rewrite app_nil_r | eexists; reflexivity ]. }
  destruct H as [news ->].
  now rewrite skipn_length_app.
Qed.

Lemma captured_run (acts : list Action) (w : World) :
  captured (run' acts w) = captured w ++ during' acts w.
Proof.
  unfold captured_during.
  assert (H : exists news, captured (run' acts w) = captured w ++ news).
  { revert w. induction acts as [| b l IH]; intros x; simpl.
    - exists []. now rewrite app_nil_r.
    - destruct (IH (after' b x)) as [n Hn]. rewrite Hn, captured_after.
      rewrite <- app_assoc. eexists; reflexivity. }
  destruct H as [news ->].
  now rewrite skipn_length_app.
Qed.

Lemma during_cons (a : Action) (acts : list Action) (w : World) :
  during' (a :: acts) w = during' [a] w ++ during' acts (after' a w).
Proof.
  apply (app_inv_head (captured w)).
  rewrite <- captured_run, app_assoc, <- captured_after, <- captured_run.
  reflexivity.
Qed.

Lemma during_nil (w : World) : during' [] w = [].
Proof.
  unfold captured_during. simpl. apply skipn_all.
Qed.

(* =============================================================== *)
(** ** Throttled capture *)

Lemma last_cons_default {A : Type} (a d : A) (l : list A) :
  last (a :: l) d = last l a.
Proof.
  revert a d. induction l as [| b l IH]; intros a d; [reflexivity |].
  change (last (a :: b :: l) d) with (last (b :: l) d).
  now rewrite (IH b d), (IH b a).
Qed.

Lemma filter_none {A : Type} (p : A -> bool) (l : list A) :
  (forall x, In x l -> p x = false) -> filter p l = [].
Proof.
  induction l as [| a l IH]; intros H; simpl; [reflexivity |].
  rewrite (H a (or_introl eq_refl)). apply IH. intros x Hx. apply H. now right.
Qed.

Lemma count_in_window_filter (ty : string) (start width : Z)
      (l : list EventData) :
  count_in_window ty start width l
  = List.length (filter (in_window start width) (filter (of_type ty) l)).
Proof.
  unfold count_in_window. f_equal.
  induction l as [| e l IH]; simpl; [reflexivity |].
  destruct (of_type ty e); simpl; [| exact IH].
  destruct (in_window start width e); simpl; now rewrite IH.
Qed.

(** What one turn adds to the capture log. *)
Ltac added :=
  unfold captured_during;
  match goal with
  | |- context [run parseFromString outerHTML [?a] ?w] =>
      change (run parseFromString outerHTML [a] w)
        with (after parseFromString outerHTML a w)
  end;
  step; rewrite ?skipn_length_app, ?skipn_all; cbn.

Lemma existsb_filter_nil {A : Type} (p : A -> bool) (l : list A) :
  filter p l = [] -> existsb p l = false.
Proof.
  induction l as [| x l IH]; simpl; [reflexivity |].
  destruct (p x); [discriminate | exact IH].
Qed.

Lemma existsb_filter_cons {A : Type} (p : A -> bool) (l r : list A) (e : A) :
  filter p l = e :: r -> existsb p l = true.
Proof.
  induction l as [| x l IH]; simpl; [discriminate |].
  destruct (p x); [reflexivity | exact IH].
Qed.

Section LeadingEdge.

(** A leading-edge throttle for events of type [ty]: a turn either
    captures nothing of that type and leaves the mark [lastT] alone, or
    begins more than [d] after the mark, captures one event, and moves the
    mark to the reading of the clock it began with. *)
Variable ty : string.
Variable d : Z.
Variable lastT : World -> Z.
Hypothesis d_nonneg : 0 <= d.
Hypothesis turn :
  forall a w,
    (filter (of_type ty) (during' [a] w) = []
     /\ lastT (after' a w) = lastT w)
    \/ (exists e, filter (of_type ty) (during' [a] w) = [e]
                  /\ (clock_stands a = true -> timestamp e = clock w)
                  /\ clock w - lastT w > d
                  /\ lastT (after' a w) = clock w).

Lemma throttled_run (acts : list Action) (w : World) :
  let signals := accepted_at parseFromString outerHTML ty acts w in
  Forall (fun t => t - lastT w > d) signals
  /\ (forall start,
        (List.length (filter (within start d) signals) <= 1)%nat)
  /\ lastT (run' acts w) = last signals (lastT w)
  /\ List.length (filter (of_type ty) (during' acts w))
     = List.length signals
  /\ (forallb clock_stands acts = true ->
      map timestamp (filter (of_type ty) (during' acts w)) = signals).
Proof.
  revert w. induction acts as [| a acts IH]; intros w; cbn zeta.
  - rewrite during_nil. simpl. repeat split; auto.
  - rewrite during_cons, filter_app, length_app, map_app.
    destruct (IH (after' a w)) as (Hall & Hwin & Hlast & Hlen & Hts).
    cbn zeta in *.
    change (run' (a :: acts) w) with (run' acts (after' a w)).
    cbn [accepted_at forallb]. unfold captures.
    destruct (turn a w) as [[Hnone Hsame] | (e & Hone & Hst & Hgap & Hmark)].
    + rewrite (existsb_filter_nil _ _ Hnone), Hnone. cbn [app List.length map].
      rewrite <- Hsame.
      split; [exact Hall |]. split; [exact Hwin |]. split; [exact Hlast |].
      split; [exact Hlen |].
      intros H. apply andb_true_iff in H. now apply Hts.
    + rewrite (existsb_filter_cons _ _ _ _ Hone), Hone.
      cbn [app List.length map]. rewrite Hmark in *.
      split; [| split; [| split; [| split]]].
      * constructor; [lia |].
        eapply Forall_impl; [| exact Hall]. simpl. intros; lia.
      * intros start. cbn [filter].
        destruct (within start d (clock w)) eqn:Hin; [| apply Hwin].
        cbn [List.length].
        replace (filter (within start d) _) with (@nil Z); [simpl; lia |].
        symmetry. apply filter_none.
        intros x Hx. rewrite Forall_forall in Hall. specialize (Hall x Hx).
        unfold within in *. simpl in Hall.
        apply andb_true_iff in Hin. destruct Hin as [Hge _].
        apply Z.leb_le in Hge.
        apply andb_false_iff. right. apply Z.leb_gt. lia.
      * rewrite last_cons_default. exact Hlast.
      * now rewrite Hlen.
      * intros H. apply andb_true_iff in H. destruct H as [Ha H].
        now rewrite (Hst Ha), (Hts H).
Qed.

End LeadingEdge.

Lemma mouseMove_turn (a : Action) (w : World) :
  (filter (of_type "mouseMove") (during' [a] w) = []
   /\ lastMoveTime (this (after' a w)) = lastMoveTime (this w))
  \/ (exists e, filter (of_type "mouseMove") (during' [a] w) = [e]
                /\ (clock_stands a = true -> timestamp e = clock w)
                /\ clock w - lastMoveTime (this w) > 50
                /\ lastMoveTime (this (after' a w)) = clock w).
Proof.
  destruct a; added; auto.
  all: right; eexists; repeat split; (lia || discriminate).
Qed.

Lemma scroll_turn (a : Action) (w : World) :
  (filter (of_type "scroll") (during' [a] w) = []
   /\ lastScrollTime (this (after' a w)) = lastScrollTime (this w))
  \/ (exists e, filter (of_type "scroll") (during' [a] w) = [e]
                /\ (clock_stands a = true -> timestamp e = clock w)
                /\ clock w - lastScrollTime (this w) > 100
                /\ lastScrollTime (this (after' a w)) = clock w).
Proof.
  destruct a; added; auto.
  all: right; eexists; repeat split; (lia || discriminate).
Qed.

(* =============================================================== *)
(** ** The queue across sends *)

Local Abbreviation occ := (count_occ EventData_eq_dec).

Lemma occ_in_flight (l : list Suspended) (s : Suspended) (e : EventData) :
  occ (List.concat (map eventsToSend (l ++ [s]))) e
  = (occ (List.concat (map eventsToSend l)) e + occ (eventsToSend s) e)%nat.
Proof.
  rewrite map_app, concat_app, count_occ_app. simpl.
  now rewrite app_nil_r.
Qed.

Lemma take_suspended_occ (id : nat) (p : AwaitPoint) (l rest : list Suspended)
      (s : Suspended) (e : EventData) :
  take_suspended id p l = Some (s, rest) ->
  occ (List.concat (map eventsToSend l)) e
  = (occ (eventsToSend s) e + occ (List.concat (map eventsToSend rest)) e)%nat.
Proof.
  revert rest. induction l as [| a l IH]; intros rest H; simpl in H;
    [discriminate |].
  destruct (Nat.eqb (request_id a) id && await_eqb (awaiting a) p)%bool.
  - inversion H; subst. simpl. now rewrite count_occ_app.
  - destruct (take_suspended id p l) as [[x rest'] |]; [| discriminate].
    inversion H; subst. simpl. rewrite !count_occ_app, (IH rest' eq_refl). lia.
Qed.

Lemma take_suspended_single (id : nat) (p : AwaitPoint)
      (l rest : list Suspended) (s : Suspended) :
  take_suspended id p l = Some (s, rest) ->
  (List.length l <= 1)%nat -> l = [s] /\ rest = [].
Proof.
  destruct l as [| a [| b l]]; simpl; intros H Hlen;
    [discriminate | | lia].
  destruct (Nat.eqb (request_id a) id && await_eqb (awaiting a) p)%bool;
    [| discriminate].
  inversion H; subst. auto.
Qed.

(** No turn loses or repeats an event, whatever the interleaving. *)
Lemma conserved_after (a : Action) (w : World) :
  conserved w -> conserved (after' a w).
Proof.
  unfold conserved, in_flight. intros H.
  rewrite (Permutation_count_occ EventData_eq_dec) in H.
  apply (Permutation_count_occ EventData_eq_dec). intros e.
  specialize (H e). revert H.
  destruct a; step; intros H;
    rewrite ?count_occ_app, ?occ_in_flight in *; cbn;
    try match goal with
        | T : take_suspended _ _ _ = Some _ |- _ =>
            rewrite (take_suspended_occ _ _ _ _ _ e T) in H
        end;
    repeat match goal with
           | |- context [EventData_eq_dec ?x ?y] =>
               destruct (EventData_eq_dec x y)
           end;
    lia.
Qed.

(* =============================================================== *)
(** ** What the constructor leaves *)

Ltac construct :=
  unfold new_ReplaySDK, new_ReplaySDK_without_root, constructed;
  lazy -[sanitizeDOM sanitize documentElement toString36 substring
         String.append String.length Nat.sub Z.add app pageHTML hasBody
         innerWidth innerHeight href pageScrollX pageScrollY].

Lemma new_spec (cfg : SDKConfig) (rnd : string) (now : Z) (p : Page) :
  new' cfg rnd now p =
  match sanitizeDOM' (pageHTML p) with
  | Throw e => (Throw e, constructed cfg rnd now p [] false startup_lines)
  | Normal html =>
      let evs := [snapshot_event html now p; scroll_event now p] in
      let lines := startup_lines ++ [capture_line; capture_line] in
      if hasBody p
      then (Normal tt, constructed cfg rnd now p evs true lines)
      else (Throw "TypeError: parameter 1 is not of type 'Node'",
            constructed cfg rnd now p evs false lines)
  end.
Proof.
  destruct cfg as [site endpoint [[|] |]];
    construct;
    destruct (sanitizeDOM' (pageHTML p)) as [html | e]; try reflexivity;
    destruct (hasBody p); reflexivity.
Qed.

Lemma new_without_root_spec
      (cfg : SDKConfig) (rnd : string) (now : Z) (p : Page) :
  new_ReplaySDK_without_root parseFromString outerHTML cfg rnd now p
  = (Throw "TypeError: Cannot read properties of null (reading 'outerHTML')",
     constructed cfg rnd now p [] false startup_lines).
Proof. destruct cfg as [site endpoint [[|] |]]; construct; reflexivity. Qed.

Lemma new_conserved (cfg : SDKConfig) (rnd : string) (now : Z) (p : Page) :
  conserved (snd (new' cfg rnd now p)).
Proof.
  rewrite new_spec. unfold conserved, in_flight.
  destruct (sanitizeDOM' (pageHTML p)); [destruct (hasBody p) |];
    cbn; reflexivity.
Qed.

Lemma new_ordered (cfg : SDKConfig) (rnd : string) (now : Z) (p : Page) :
  in_capture_order (snd (new' cfg rnd now p))
  /\ (List.length (suspended (snd (new' cfg rnd now p))) <= 1)%nat.
Proof.
  rewrite new_spec. unfold in_capture_order, in_flight.
  destruct (sanitizeDOM' (pageHTML p)); [destruct (hasBody p) |];
    cbn; auto.
Qed.

(** With at most one activation parked, a turn that does not start a
    second send keeps the three segments in capture order. *)
Lemma ordered_after (a : Action) (w : World) :
  in_capture_order w -> (List.length (suspended w) <= 1)%nat ->
  (negb (starts_send a w)
   || Nat.eqb (List.length (suspended w)) 0)%bool = true ->
  in_capture_order (after' a w)
  /\ (List.length (suspended (after' a w)) <= 1)%nat.
Proof.
  unfold in_capture_order, in_flight, starts_send.
  destruct a; step; intros H Hlen Hone; try (split; [exact H | exact Hlen]).
  all: try match goal with
        | T : take_suspended _ _ _ = Some _ |- _ =>
            destruct (take_suspended_single _ _ _ _ _ T Hlen) as [E1 E2];
            rewrite E1 in *; subst; cbn in *
        end.
  all: rewrite ?app_nil_r in *; cbn.
  all: try (split; [rewrite H, <- ?app_assoc; reflexivity | auto]).
  destruct (suspended w); [| discriminate].
  cbn in *. rewrite app_nil_r in *. auto.
Qed.

Lemma ordered_run (acts : list Action) (w : World) :
  in_capture_order w -> (List.length (suspended w) <= 1)%nat ->
  one_send_at_a_time parseFromString outerHTML acts w = true ->
  in_capture_order (run' acts w)
  /\ (List.length (suspended (run' acts w)) <= 1)%nat.
Proof.
  revert w. induction acts as [| a acts IH]; intros w H Hlen Hone; simpl.
  - auto.
  - simpl in Hone. apply andb_true_iff in Hone. destruct Hone as [Ha Hrest].
    destruct (ordered_after a w H Hlen Ha) as [H' Hlen'].
    now apply IH.
Qed.

Lemma conserved_run (acts : list Action) (w : World) :
  conserved w -> conserved (run' acts w).
Proof. apply run_invariant. intros a x. apply conserved_after. Qed.

(** The [catch] block puts the batch back in front of the queue. *)
Lemma fetch_failure_requeues (id : nat) (r : FetchResult) (w : World)
      (act : Suspended) (rest : list Suspended) :
  take_suspended id AwaitingFetch (suspended w) = Some (act, rest) ->
  (r = Rejected \/ exists status, r = Response false status) ->
  events (this (after' (FetchSettles id r) w))
  = eventsToSend act ++ events (this w)
  /\ delivered (after' (FetchSettles id r) w) = delivered w
  /\ suspended (after' (FetchSettles id r) w) = rest
  /\ requests (after' (FetchSettles id r) w) = requests w.
Proof.
  intros T [-> | [status ->]]; unfold_methods; cbn; rewrite T; cbn; auto.
Qed.

Lemma json_failure_requeues (id : nat) (w : World)
      (act : Suspended) (rest : list Suspended) :
  take_suspended id AwaitingJson (suspended w) = Some (act, rest) ->
  events (this (after' (JsonSettles id false) w))
  = eventsToSend act ++ events (this w)
  /\ delivered (after' (JsonSettles id false) w) = delivered w
  /\ suspended (after' (JsonSettles id false) w) = rest
  /\ requests (after' (JsonSettles id false) w) = requests w.
Proof.
  intros T; unfold_methods; cbn; rewrite T; cbn; auto.
Qed.

(** C1, as amended.  From construction on, whatever the interleaving of
    captures, sends and failures, no event is lost or duplicated: the
    captured events are, up to order, the delivered ones, the ones in
    flight and the queued ones.  When no send starts while another is
    still pending, they are so in capture order, hence what is delivered
    is always an initial segment of what was captured.  A failed send puts
    its batch back at the head of the queue, before everything enqueued
    during the attempt. *)
Theorem capture_order_without_overlapping_sends
        (cfg : SDKConfig) (rnd : string) (now : Z) (p : Page)
        (acts : list Action) :
  let w0 := snd (new' cfg rnd now p) in
  let w := run' acts w0 in
  conserved w
  /\ (one_send_at_a_time parseFromString outerHTML acts w0 = true ->
      in_capture_order w /\ delivered_in_capture_order w)
  /\ (forall id r act rest,
        take_suspended id AwaitingFetch (suspended w) = Some (act, rest) ->
        (r = Rejected \/ exists status, r = Response false status) ->
        events (this (after' (FetchSettles id r) w))
        = eventsToSend act ++ events (this w))
  /\ (forall id act rest,
        take_suspended id AwaitingJson (suspended w) = Some (act, rest) ->
        events (this (after' (JsonSettles id false) w))
        = eventsToSend act ++ events (this w)).
Proof.
  intros w0 w.
  destruct (new_ordered cfg rnd now p) as [H0 Hlen0].
  split; [apply conserved_run, new_conserved |].
  split; [| split].
  - intros Hone.
    destruct (ordered_run acts w0 H0 Hlen0 Hone) as [Ho _].
    split; [exact Ho |].
    exists (in_flight w ++ events (this w)). exact Ho.
  - intros id r act rest T Hr.
    apply (fetch_failure_requeues id r w act rest T Hr).
  - intros id act rest T.
    apply (json_failure_requeues id w act rest T).
Qed.

(* =============================================================== *)
(** ** One flush cycle *)

(** C3.  On an empty queue [sendEvents] returns at once: no request, and
    the world is left exactly as it was, also when the call comes from the
    interval timer.  On a queue that holds something the first segment
    of [sendEvents] issues exactly one request, carrying the whole queue,
    and the two later segments issue none: at most one request a cycle. *)
Theorem empty_flush_is_a_no_op_and_a_cycle_sends_once :
  (forall w, events (this w) = [] ->
             sendEvents w = (Normal tt, w)
             /\ forall h, fire' (IntervalFires h) w = (Normal tt, w))
  /\ (forall w, events (this w) <> [] ->
                exists rq, requests (snd (sendEvents w)) = requests w ++ [rq]
                           /\ rq_events rq = events (this w))
  /\ (forall act r w,
        requests (snd (sendEvents_afterFetch act r w)) = requests w)
  /\ (forall act parsed w,
        requests (snd (sendEvents_afterJson act parsed w)) = requests w).
Proof.
  repeat split.
  - unfold_methods. cbn. rewrite H. reflexivity.
  - intros h. unfold_methods. cbn.
    destruct (has_handle h (intervals w)); cbn; rewrite ?H; reflexivity.
  - intros w H. unfold_methods. cbn.
    destruct (events (this w)) as [| e l] eqn:E; [congruence |].
    cbn. eexists. split; reflexivity.
  - intros act r w. destruct r as [| [|] status]; step; reflexivity.
  - intros act parsed w. destruct parsed; step; reflexivity.
Qed.

(* =============================================================== *)
(** ** Parked activations *)

Lemma take_suspended_split (id : nat) (p : AwaitPoint)
      (l rest : list Suspended) (s : Suspended) :
  take_suspended id p l = Some (s, rest) ->
  exists l1 l2, l = l1 ++ s :: l2 /\ rest = l1 ++ l2
                /\ request_id s = id /\ awaiting s = p.
Proof.
  revert rest. induction l as [| a l IH]; intros rest H; simpl in H;
    [discriminate |].
  destruct (Nat.eqb (request_id a) id && await_eqb (awaiting a) p)%bool eqn:E.
  - inversion H; subst. exists [], rest. repeat split.
    + apply andb_true_iff in E. now apply Nat.eqb_eq.
    + apply andb_true_iff in E. destruct E as [_ E].
      destruct (awaiting s), p; simpl in E; congruence.
  - destruct (take_suspended id p l) as [[x rest'] |]; [| discriminate].
    inversion H; subst.
    destruct (IH rest' eq_refl) as (l1 & l2 & -> & -> & Hid & Hp).
    exists (a :: l1), l2. repeat split; auto.
Qed.

Lemma take_suspended_last (id : nat) (p : AwaitPoint)
      (l : list Suspended) (s : Suspended) :
  ~ In id (map request_id l) -> request_id s = id -> awaiting s = p ->
  take_suspended id p (l ++ [s]) = Some (s, l).
Proof.
  intros Hnot Hid Hp. induction l as [| a l IH]; simpl.
  - rewrite Hid, Nat.eqb_refl, Hp. destruct p; reflexivity.
  - destruct (Nat.eqb (request_id a) id) eqn:E.
    + apply Nat.eqb_eq in E. exfalso. apply Hnot. now left.
    + simpl. rewrite IH; [reflexivity |].
      intros Hin. apply Hnot. now right.
Qed.

Lemma take_suspended_rest (id : nat) (p : AwaitPoint)
      (l rest : list Suspended) (act : Suspended) :
  take_suspended id p l = Some (act, rest) ->
  NoDup (map request_id l) ->
  NoDup (map request_id rest)
  /\ (forall s, In s rest -> In s l)
  /\ ~ In (request_id act) (map request_id rest)
  /\ In act l.
Proof.
  intros T Hnd.
  destruct (take_suspended_split _ _ _ _ _ T) as (l1 & l2 & -> & -> & _ & _).
  rewrite map_app in *. simpl in Hnd.
  repeat split.
  - eapply NoDup_remove_1; eassumption.
  - intros s Hs. apply in_app_iff in Hs. apply in_app_iff. simpl. tauto.
  - eapply NoDup_remove_2; eassumption.
  - apply in_app_iff. simpl. auto.
Qed.

Lemma NoDup_snoc {A : Type} (l : list A) (x : A) :
  NoDup l -> ~ In x l -> NoDup (l ++ [x]).
Proof.
  intros Hl Hx. apply NoDup_rev in Hl.
  rewrite <- (rev_involutive (l ++ [x])). apply NoDup_rev.
  rewrite rev_app_distr. simpl. constructor; [| exact Hl].
  now rewrite <- in_rev.
Qed.

Lemma parked_ok_after (a : Action) (w : World) :
  parked_ok w -> parked_ok (after' a w).
Proof.
  unfold parked_ok.
  destruct a; step; intros [Hnd Hall]; try (split; assumption).
  all: try match goal with
        | T : take_suspended _ _ _ = Some _ |- _ =>
            destruct (take_suspended_rest _ _ _ _ _ T Hnd)
              as (Hnd' & Hsub & Hfresh & Hact)
        end.
  all: try (split; [exact Hnd' | intros x Hx; apply Hall, Hsub, Hx]).
  - (* a send starts: the new activation is named after the new request *)
    split.
    + rewrite map_app. apply NoDup_snoc; [exact Hnd |]. simpl.
      intros Hin. apply in_map_iff in Hin. destruct Hin as (x & Hid & Hx).
      destruct (Hall x Hx) as (_ & rq & Hrq & _).
      assert (Hlt : (request_id x < List.length (requests w))%nat)
        by (apply nth_error_Some; congruence).
      lia.
    + intros x Hx. apply in_app_iff in Hx. destruct Hx as [Hx | [<- | []]].
      * destruct (Hall x Hx) as (Hne & rq & Hrq & Hev).
        split; [exact Hne |]. exists rq. split; [| exact Hev].
        rewrite nth_error_app1; [exact Hrq |].
        apply nth_error_Some. congruence.
      * cbn. split.
        -- intros E. rewrite E in *. discriminate.
        -- eexists. split.
           ++ rewrite nth_error_app2, Nat.sub_diag by lia. reflexivity.
           ++ reflexivity.
  - (* an accepted response: the activation is parked again *)
    split.
    + rewrite map_app. apply NoDup_snoc; [exact Hnd' | exact Hfresh].
    + intros x Hx. apply in_app_iff in Hx. destruct Hx as [Hx | [<- | []]].
      * apply Hall, Hsub, Hx.
      * cbn. apply Hall, Hact.
Qed.

Lemma new_parked_ok (cfg : SDKConfig) (rnd : string) (now : Z) (p : Page) :
  parked_ok (snd (new' cfg rnd now p)).
Proof.
  rewrite new_spec. unfold parked_ok.
  destruct (sanitizeDOM' (pageHTML p)); [destruct (hasBody p) |];
    cbn; (split; [constructor | intros s []]).
Qed.

Lemma parked_ok_run (acts : list Action) (w : World) :
  parked_ok w -> parked_ok (run' acts w).
Proof. apply run_invariant. intros a x. apply parked_ok_after. Qed.

(** C9.  From construction on: when the collector answers a request with
    a success status, the activation is parked on [response.json()] with
    the queue and the delivery log untouched.  When the body then fails to
    parse, the batch, which that request has already carried to the
    collector, goes back to the head of the queue and is not counted as
    delivered; the next time the interval fires, one request leaves
    that again carries the batch, followed by what was queued since. *)
Theorem unparseable_body_requeues_received_batch
        (cfg : SDKConfig) (rnd : string) (now : Z) (p : Page)
        (acts : list Action) (id : nat) (act : Suspended)
        (rest : list Suspended) :
  let w := run' acts (snd (new' cfg rnd now p)) in
  (forall status,
     take_suspended id AwaitingFetch (suspended w) = Some (act, rest) ->
     let w1 := after' (FetchSettles id (Response true status)) w in
     events (this w1) = events (this w) /\ delivered w1 = delivered w
     /\ requests w1 = requests w
     /\ exists act', take_suspended id AwaitingJson (suspended w1)
                     = Some (act', rest)
                     /\ eventsToSend act' = eventsToSend act)
  /\ (take_suspended id AwaitingJson (suspended w) = Some (act, rest) ->
      let w2 := after' (JsonSettles id false) w in
      events (this w2) = eventsToSend act ++ events (this w)
      /\ delivered w2 = delivered w
      /\ (exists sent, nth_error (requests w) id = Some sent
                       /\ rq_events sent = eventsToSend act)
      /\ forall h, has_handle h (intervals w2) = true ->
            exists again,
              requests (after' (IntervalFires h) w2) = requests w ++ [again]
              /\ rq_events again = eventsToSend act ++ events (this w)).
Proof.
  intros w.
  assert (Hok : parked_ok w) by apply parked_ok_run, new_parked_ok.
  destruct Hok as [Hnd Hall]. split.
  - intros status T w1.
    destruct (take_suspended_rest _ _ _ _ _ T Hnd) as (_ & _ & Hfresh & _).
    destruct (take_suspended_split _ _ _ _ _ T) as (_ & _ & _ & _ & Hid & _).
    subst w1. unfold_methods. cbn. rewrite T. cbn.
    repeat split.
    eexists. split.
    + apply take_suspended_last; cbn; congruence.
    + reflexivity.
  - intros T w2.
    destruct (take_suspended_rest _ _ _ _ _ T Hnd) as (_ & _ & _ & Hact).
    destruct (take_suspended_split _ _ _ _ _ T) as (_ & _ & _ & _ & Hid & _).
    destruct (Hall act Hact) as (Hne & sent & Hsent & Hev).
    destruct (json_failure_requeues id w act rest T) as (He & Hd & Hs & Hr).
    fold w2 in He, Hd, Hs, Hr.
    repeat split; auto.
    + exists sent. rewrite <- Hid. auto.
    + intros h Hh. clearbody w2. unfold_methods. cbn. rewrite Hh. cbn.
      rewrite He.
      destruct (eventsToSend act) as [| e l] eqn:E; [congruence |].
      cbn. rewrite Hr. eexists. split; reflexivity.
Qed.

(* =============================================================== *)
(** ** [stop] *)

Lemma has_handle_drop (h : Z) (l : list (Z * Z)) :
  has_handle h (drop_handle h l) = false.
Proof.
  unfold has_handle, drop_handle.
  induction l as [| e l IH]; simpl; [reflexivity |].
  destruct (Z.eqb (fst e) h) eqn:E; simpl; [exact IH |].
  now rewrite E, IH.
Qed.

Lemma drop_absent (h : Z) (l : list (Z * Z)) :
  has_handle h l = false -> drop_handle h l = l.
Proof.
  unfold has_handle, drop_handle.
  induction l as [| e l IH]; simpl; [reflexivity |].
  destruct (Z.eqb (fst e) h) eqn:E; simpl; [discriminate |].
  intros H. now rewrite IH.
Qed.

Lemma drop_drop (h : Z) (l : list (Z * Z)) :
  drop_handle h (drop_handle h l) = drop_handle h l.
Proof. apply drop_absent, has_handle_drop. Qed.

(** C8.  [stop] always returns.  It clears the running flag and takes the
    handle kept in [sendInterval] out of the timer table, so that this
    interval does not call back any more; apart from the flag, the
    timer table and the console the world is as before, in particular
    the queue, the requests issued and the sends in flight.  When no timer
    is live the timer table is untouched as well.  A second [stop]
    returns too and changes nothing but the console. *)
Theorem stop_cancels_the_timer_and_nothing_else (w : World) :
  let w1 := snd (stop w) in
  fst (stop w) = Normal tt
  /\ isRunning (this w1) = false
  /\ (forall h, sendInterval (this w) = Some h -> h <> 0 ->
                has_handle h (intervals w1) = false
                /\ fire' (IntervalFires h) w1 = (Normal tt, w1))
  /\ w1 = set_console (console w1)
            (set_intervals (intervals w1)
               (on_this (set_isRunning false) w))
  /\ events (this w1) = events (this w)
  /\ requests w1 = requests w
  /\ suspended w1 = suspended w
  /\ delivered w1 = delivered w
  /\ ((forall h, sendInterval (this w) = Some h ->
                 has_handle h (intervals w) = false) ->
      intervals w1 = intervals w)
  /\ fst (stop w1) = Normal tt
  /\ same_but_console w1 (snd (stop w1)).
Proof.
  cbv zeta. unfold same_but_console.
  destruct (sendInterval (this w)) as [h |] eqn:Hi;
    [destruct (Z.eqb h 0) eqn:Hz |];
    unfold_methods; cbn; rewrite ?Hi; cbn; rewrite ?Hz; cbn;
    rewrite ?Hi; cbn; rewrite ?Hz; cbn.
  all: rewrite ?drop_drop; repeat split; try reflexivity.
  all: try match goal with H : Some _ = Some _ |- _ => inversion H; subst end.
  all: try (exfalso; apply Z.eqb_eq in Hz; congruence).
  all: rewrite ?has_handle_drop; try reflexivity.
  all: try discriminate.
  intros Hnone. apply drop_absent, Hnone. reflexivity.
Qed.

(* =============================================================== *)
(** ** After [stop] *)

Lemma owned_timer_after (a : Action) (w : World) :
  owned_timer w -> owned_timer (after' a w).
Proof.
  unfold owned_timer. intros H e He. rewrite sendInterval_after.
  destruct (intervals_after a w) as [E | (h & _ & _ & _ & E)];
    rewrite E in He; [now apply H |].
  unfold drop_handle in He. apply filter_In in He. now apply H.
Qed.

Lemma new_owned_timer (cfg : SDKConfig) (rnd : string) (now : Z) (p : Page) :
  owned_timer (snd (new' cfg rnd now p)).
Proof.
  rewrite new_spec. unfold owned_timer.
  destruct (sanitizeDOM' (pageHTML p)); [destruct (hasBody p) |]; cbn;
    intros x [<- | []]; cbn; split; (reflexivity || lia).
Qed.

Lemma stop_leaves_no_timer (w : World) :
  owned_timer w -> intervals (after' Stop w) = [].
Proof.
  unfold owned_timer. intros H.
  assert (G : forall h, sendInterval (this w) = Some h -> h <> 0 ->
                        drop_handle h (intervals w) = []).
  { intros h Hi Hne. unfold drop_handle. apply filter_none.
    intros e He. destruct (H e He) as [E _].
    assert (fst e = h) by congruence. subst h.
    now rewrite Z.eqb_refl. }
  assert (G' : (forall h, sendInterval (this w) = Some h -> h = 0) ->
               intervals w = []).
  { intros Hz. destruct (intervals w) as [| e l] eqn:E; [reflexivity |].
    destruct (H e (or_introl eq_refl)) as [Hs Hne].
    specialize (Hz _ Hs). contradiction. }
  unfold_methods. cbn.
  destruct (sendInterval (this w)) as [h |] eqn:Hi; cbn;
    [destruct (Z.eqb h 0) eqn:Hz; cbn |].
  - apply G'. intros h' E. apply Z.eqb_eq in Hz. congruence.
  - apply G; [reflexivity |]. intros ->. discriminate.
  - apply G'. intros h' E. discriminate.
Qed.

Lemma no_timer_after (a : Action) (w : World) :
  intervals w = [] -> intervals (after' a w) = [].
Proof.
  intros H.
  destruct (intervals_after a w) as [E | (h & _ & _ & _ & E)];
    rewrite E, H; reflexivity.
Qed.

Lemma stopped_after (a : Action) (w : World) :
  isRunning (this w) = false -> isRunning (this (after' a w)) = false.
Proof. destruct a; step; auto. Qed.

Lemma stop_clears_flag (w : World) :
  isRunning (this (after' Stop w)) = false.
Proof. step; reflexivity. Qed.

(** No turn reads the running flag. *)
Lemma flag_not_read (a : Action) (b : bool) (w : World) :
  a <> Stop ->
  after' a (on_this (set_isRunning b) w)
  = on_this (set_isRunning b) (after' a w).
Proof.
  assert (L : forall ty, listens ty (on_this (set_isRunning b) w)
                         = listens ty w) by reflexivity.
  destruct a; intros Ha; try congruence;
    unfold_methods; cbn; rewrite ?L; repeat (break_match; cbn; use_debug);
    reflexivity.
Qed.

(** Without a live interval the queue only grows: a turn may put a
    failed batch in front or a new event behind. *)
Lemma queue_grows_without_timer (a : Action) (w : World) :
  intervals w = [] ->
  exists front back,
    events (this (after' a w)) = front ++ events (this w) ++ back.
Proof.
  intros H.
  destruct a;
    try (unfold_methods; cbn; rewrite H; cbn; exists [], [];
         now rewrite app_nil_r);
    step;
    solve [ exists [], []; now rewrite app_nil_r
          | eexists [], [_]; reflexivity
          | eexists _, []; rewrite app_nil_r; reflexivity ].
Qed.

Lemma click_captured (x y : Z) (tagName : string) (w : World) :
  listens "click" w = true ->
  during' [Click x y tagName] w = [click_event x y tagName (clock w)]
  /\ events (this (after' (Click x y tagName) w))
     = events (this w) ++ [click_event x y tagName (clock w)].
Proof.
  intros H. unfold captured_during.
  change (run' [Click x y tagName] w) with (after' (Click x y tagName) w).
  unfold_methods. cbn. rewrite H. cbn.
  now rewrite skipn_length_app.
Qed.

Lemma move_captured (x y : Z) (w : World) :
  listens "mousemove" w = true ->
  clock w - lastMoveTime (this w) > 50 ->
  during' [MouseMove x y] w = [move_event x y (clock w)]
  /\ events (this (after' (MouseMove x y) w))
     = events (this w) ++ [move_event x y (clock w)].
Proof.
  intros H Hgap. unfold captured_during.
  change (run' [MouseMove x y] w) with (after' (MouseMove x y) w).
  unfold_methods. cbn. rewrite H. cbn.
  replace (clock w - lastMoveTime (this w) >? 50)%Z with true
    by (symmetry; apply Z.gtb_lt; lia).
  cbn. now rewrite skipn_length_app.
Qed.

Lemma move_dropped (x y : Z) (w : World) :
  clock w - lastMoveTime (this w) <= 50 ->
  after' (MouseMove x y) w = w.
Proof.
  intros Hgap. unfold_methods. cbn.
  destruct (listens "mousemove" w); cbn; [| reflexivity].
  replace (clock w - lastMoveTime (this w) >? 50)%Z with false;
    [reflexivity |].
  symmetry. rewrite Z.gtb_ltb. apply Z.ltb_ge. lia.
Qed.

Lemma scroll_captured (w : World) :
  listens "scroll" w = true ->
  clock w - lastScrollTime (this w) > 100 ->
  events (this (after' Scroll w))
  = events (this w) ++ [scroll_event (clock w) (page w)].
Proof.
  intros H Hgap. unfold_methods. cbn. rewrite H. cbn.
  replace (clock w - lastScrollTime (this w) >? 100)%Z with true
    by (symmetry; apply Z.gtb_lt; lia).
  reflexivity.
Qed.

Lemma has_handle_snoc (h d : Z) (l : list (Z * Z)) :
  has_handle h (l ++ [(h, d)]) = true.
Proof.
  unfold has_handle. rewrite existsb_app. simpl.
  rewrite Z.eqb_refl. apply orb_true_iff. right. reflexivity.
Qed.

(** One snapshot cycle: only a sanitized text that differs from the last
    one recorded is enqueued, and it is recorded at once. *)
Lemma snapshot_cycle (w : World) (c : string) :
  sanitizeDOM' (pageHTML (page w)) = Normal c ->
  domSnapshotCallback parseFromString outerHTML w
  = (Normal tt,
     if c =? lastDOMSnapshot (this w) then w
     else on_this (set_lastDOMSnapshot c)
            (snd (captureEvent "domSnapshot"
                    (DomSnapshotData c (innerWidth (page w))
                                     (innerHeight (page w)) (href (page w)))
                    w))).
Proof.
  intros Hs. unfold_methods. cbn. rewrite Hs. cbn.
  destruct (c =? lastDOMSnapshot (this w)); reflexivity.
Qed.

(** Two cycles in a row on the same sanitized text: whatever the first
    one did, it leaves that text recorded, and the second one changes
    nothing. *)
Lemma second_cycle_is_suppressed (w : World) (c : string) :
  sanitizeDOM' (pageHTML (page w)) = Normal c ->
  let w1 := snd (domSnapshotCallback parseFromString outerHTML w) in
  lastDOMSnapshot (this w1) = c
  /\ domSnapshotCallback parseFromString outerHTML w1 = (Normal tt, w1).
Proof.
  intros Hs. cbv zeta. rewrite (snapshot_cycle w c Hs). cbn [snd].
  destruct (c =? lastDOMSnapshot (this w)) eqn:E.
  - apply String.eqb_eq in E. split; [congruence |].
    rewrite (snapshot_cycle w c Hs). rewrite <- E, String.eqb_refl. reflexivity.
  - split; [reflexivity |].
    rewrite snapshot_cycle with (c := c) by exact Hs.
    cbn. rewrite String.eqb_refl. reflexivity.
Qed.

(** A mutation, then the debounce timer: the snapshot is enqueued when
    its sanitized text is new. *)
Lemma mutation_snapshot (w : World) (c : string) :
  observing w = true ->
  sanitizeDOM' (pageHTML (page w)) = Normal c ->
  (c =? lastDOMSnapshot (this w)) = false ->
  let w' := run' [Mutation; TimeoutFires (nextHandle w)] w in
  events (this w')
  = events (this w) ++ [snapshot_event c (clock w) (page w)]
  /\ lastDOMSnapshot (this w') = c.
Proof.
  intros Ho Hs Hne. cbv zeta.
  change (run' [Mutation; TimeoutFires (nextHandle w)] w)
    with (after' (TimeoutFires (nextHandle w)) (after' Mutation w)).
  assert (E : exists l,
             after' Mutation w
             = on_this (set_domSnapshotTimeout (Some (nextHandle w)))
                 (set_nextHandle (nextHandle w + 1)
                    (set_timeouts (l ++ [(nextHandle w, 1000)]) w))).
  { unfold_methods. cbn. rewrite Ho. cbn.
    destruct (truthy (domSnapshotTimeout (this w)));
      [destruct (domSnapshotTimeout (this w)) |]; cbn;
      eexists; reflexivity. }
  destruct E as [l ->].
  unfold_methods. cbn. rewrite has_handle_snoc. cbn.
  rewrite Hs. cbn. rewrite Hne. cbn. auto.
Qed.

Lemma new_normal (cfg : SDKConfig) (rnd : string) (now : Z) (p : Page) :
  fst (new' cfg rnd now p) = Normal tt ->
  exists c,
    sanitizeDOM' (pageHTML p) = Normal c /\ hasBody p = true
    /\ snd (new' cfg rnd now p)
       = constructed cfg rnd now p
           [snapshot_event c now p; scroll_event now p] true
           (startup_lines ++ [capture_line; capture_line]).
Proof.
  rewrite new_spec.
  destruct (sanitizeDOM' (pageHTML p)) as [c | e]; [| discriminate].
  cbv zeta. destruct (hasBody p); [| discriminate].
  intros _. exists c. auto.
Qed.

Lemma queue_grows_run (acts : list Action) (w : World) :
  intervals w = [] ->
  exists front back,
    events (this (run' acts w)) = front ++ events (this w) ++ back.
Proof.
  revert w. induction acts as [| a acts IH]; intros w H; simpl.
  - exists [], []. now rewrite app_nil_r.
  - destruct (IH (after' a w) (no_timer_after a w H)) as (f & b & E).
    destruct (queue_grows_without_timer a w H) as (f0 & b0 & E0).
    exists (f ++ f0), (b0 ++ b). rewrite E, E0.
    now rewrite <- !app_assoc.
Qed.

Lemma clicks_pile_up (n : nat) (w : World) :
  listens "click" w = true ->
  List.length (events (this (run' (repeat (Click 0 0 "a") n) w)))
  = (List.length (events (this w)) + n)%nat.
Proof.
  revert w. induction n as [| n IH]; intros w H; simpl; [lia |].
  rewrite IH.
  - destruct (click_captured 0 0 "a" w H) as [_ E]. rewrite E.
    rewrite length_app. simpl. lia.
  - unfold listens. rewrite listeners_after. exact H.
Qed.

(** C10.  Take any world reached after [stop] on a constructed object.
    No turn but [stop] itself behaves differently when the running flag
    is flipped: the flag is read nowhere.  The flag is off and no
    interval is live, so that no flush starts; the three listeners and
    the observer are still attached.  A click enqueues an event, and so
    do a pointer move and a scroll once their cool-down is over, and a
    mutation followed by the debounce timer when the sanitized document
    is new.  From there on the queue is never shortened, whatever
    happens, and it grows by one with every click: it has no bound. *)
Theorem capture_goes_on_after_stop
        (cfg : SDKConfig) (rnd : string) (now : Z) (p : Page)
        (acts1 acts2 : list Action) :
  fst (new' cfg rnd now p) = Normal tt ->
  let w := run' acts2 (after' Stop (run' acts1 (snd (new' cfg rnd now p)))) in
  (forall a b x, a <> Stop ->
                 after' a (on_this (set_isRunning b) x)
                 = on_this (set_isRunning b) (after' a x))
  /\ isRunning (this w) = false
  /\ intervals w = []
  /\ (forall h, after' (IntervalFires h) w = w)
  /\ listeners w = ["mousemove"; "click"; "scroll"]
  /\ observing w = true
  /\ (forall x y t,
        events (this (after' (Click x y t) w))
        = events (this w) ++ [click_event x y t (clock w)])
  /\ (forall x y,
        clock w - lastMoveTime (this w) > 50 ->
        events (this (after' (MouseMove x y) w))
        = events (this w) ++ [move_event x y (clock w)])
  /\ (clock w - lastScrollTime (this w) > 100 ->
      events (this (after' Scroll w))
      = events (this w) ++ [scroll_event (clock w) (page w)])
  /\ (forall c,
        sanitizeDOM' (pageHTML (page w)) = Normal c ->
        (c =? lastDOMSnapshot (this w)) = false ->
        events (this (run' [Mutation; TimeoutFires (nextHandle w)] w))
        = events (this w) ++ [snapshot_event c (clock w) (page w)])
  /\ (forall acts, exists front back,
        events (this (run' acts w)) = front ++ events (this w) ++ back)
  /\ (forall n,
        List.length (events (this (run' (repeat (Click 0 0 "a") n) w)))
        = (List.length (events (this w)) + n)%nat).
Proof.
  intros Hnew w.
  destruct (new_normal cfg rnd now p Hnew) as (c0 & _ & _ & Hw0).
  set (w0 := snd (new' cfg rnd now p)) in *.
  set (ws := after' Stop (run' acts1 w0)) in *.
  assert (Hls : listeners w = ["mousemove"; "click"; "scroll"]).
  { subst w ws. rewrite listeners_run, listeners_after, listeners_run.
    now rewrite Hw0. }
  assert (Hob : observing w = true).
  { subst w ws. rewrite observing_run, observing_after, observing_run.
    now rewrite Hw0. }
  assert (Hno : intervals w = []).
  { subst w. apply (run_invariant (fun x => intervals x = []));
      [intros a x; apply no_timer_after |].
    subst ws. apply stop_leaves_no_timer.
    apply (run_invariant owned_timer);
      [intros a x; apply owned_timer_after | apply new_owned_timer]. }
  assert (Hrun : isRunning (this w) = false).
  { subst w. apply (run_invariant (fun x => isRunning (this x) = false));
      [intros a x; apply stopped_after |].
    subst ws. apply stop_clears_flag. }
  assert (Hl : forall ty, In ty ["mousemove"; "click"; "scroll"] ->
                          listens ty w = true).
  { intros ty Hty. unfold listens. rewrite Hls.
    apply existsb_exists. exists ty. split; [exact Hty |].
    apply String.eqb_refl. }
  split; [intros a b x Ha; now apply flag_not_read |].
  split; [exact Hrun |]. split; [exact Hno |].
  split.
  { intros h. unfold_methods. cbn. rewrite Hno. reflexivity. }
  split; [exact Hls |]. split; [exact Hob |].
  split.
  { intros x y t. apply click_captured, Hl. simpl. auto. }
  split.
  { intros x y Hgap. apply move_captured; [apply Hl; simpl; auto | exact Hgap]. }
  split.
  { intros Hgap. apply scroll_captured; [apply Hl; simpl; auto | exact Hgap]. }
  split.
  { intros c Hs Hne. now apply mutation_snapshot. }
  split.
  { intros acts. now apply queue_grows_run. }
  intros n. apply clicks_pile_up, Hl. simpl. auto.
Qed.

(* =============================================================== *)
(** ** The throttles, stated on runs *)

Lemma move_late_captured (x y stamp : Z) (w : World) :
  listens "mousemove" w = true ->
  clock w - lastMoveTime (this w) > 50 ->
  during' [MouseMoveLate x y stamp] w = [move_event x y stamp]
  /\ events (this (after' (MouseMoveLate x y stamp) w))
     = events (this w) ++ [move_event x y stamp]
  /\ lastMoveTime (this (after' (MouseMoveLate x y stamp) w)) = clock w.
Proof.
  intros H Hgap. unfold captured_during.
  change (run' [MouseMoveLate x y stamp] w)
    with (after' (MouseMoveLate x y stamp) w).
  unfold_methods. cbn. rewrite H. cbn.
  replace (clock w - lastMoveTime (this w) >? 50)%Z with true
    by (symmetry; apply Z.gtb_lt; lia).
  cbn. now rewrite skipn_length_app.
Qed.

Lemma move_late_dropped (x y stamp : Z) (w : World) :
  clock w - lastMoveTime (this w) <= 50 ->
  after' (MouseMoveLate x y stamp) w = w.
Proof.
  intros Hgap. unfold_methods. cbn.
  destruct (listens "mousemove" w); cbn; [| reflexivity].
  replace (clock w - lastMoveTime (this w) >? 50)%Z with false;
    [reflexivity |].
  symmetry. rewrite Z.gtb_ltb. apply Z.ltb_ge. lia.
Qed.

Lemma scrolls_captured (stamp : Z) (w : World) :
  listens "scroll" w = true ->
  clock w - lastScrollTime (this w) > 100 ->
  during' [Scroll] w = [scroll_event (clock w) (page w)]
  /\ during' [ScrollLate stamp] w = [scroll_event stamp (page w)]
  /\ lastScrollTime (this (after' (ScrollLate stamp) w)) = clock w.
Proof.
  intros H Hgap. unfold captured_during.
  change (run' [Scroll] w) with (after' Scroll w).
  change (run' [ScrollLate stamp] w) with (after' (ScrollLate stamp) w).
  unfold_methods. cbn. rewrite H. cbn.
  replace (clock w - lastScrollTime (this w) >? 100)%Z with true
    by (symmetry; apply Z.gtb_lt; lia).
  cbn. now rewrite !skipn_length_app.
Qed.

Lemma scrolls_dropped (stamp : Z) (w : World) :
  clock w - lastScrollTime (this w) <= 100 ->
  after' Scroll w = w /\ after' (ScrollLate stamp) w = w.
Proof.
  intros Hgap. unfold_methods. cbn.
  destruct (listens "scroll" w); cbn; [| now split].
  replace (clock w - lastScrollTime (this w) >? 100)%Z with false;
    [now split |].
  symmetry. rewrite Z.gtb_ltb. apply Z.ltb_ge. lia.
Qed.

Lemma window_of_stamps (start width : Z) (l : list EventData) :
  List.length (filter (in_window start width) l)
  = List.length (filter (within start width) (map timestamp l)).
Proof.
  induction l as [| e l IH]; simpl; [reflexivity |].
  unfold in_window at 1, within at 1.
  destruct ((start <=? timestamp e)%Z && (timestamp e <=? start + width)%Z)%bool;
    simpl; now rewrite IH.
Qed.


(** A click whose target has no [tagName] raises in the listener, before
    [captureEvent] is called: nothing is captured. *)
Lemma click_outside_an_element_raises (x y : Z) (w : World) :
  listens "click" w = true ->
  exists e, fire' (ClickOutside x y) w = (Throw e, w).
Proof.
  intros H. unfold_methods. cbn. rewrite H. cbn. eexists. reflexivity.
Qed.

(* =============================================================== *)
(** ** Snapshots *)

Lemma sanitizeDOM_output (markup html : string) :
  sanitizeDOM' markup = Normal html ->
  sanitized_output parseFromString outerHTML html.
Proof.
  unfold sanitizeDOM, sanitized_output. intros H.
  destruct (parseFromString markup) as [doc |] eqn:Hp; [| discriminate].
  destruct (documentElement (sanitize doc)) as [root |] eqn:Hr;
    [| discriminate].
  inversion H; subst. exists markup, doc, root. auto.
Qed.

Lemma snapshots_sanitized_after (a : Action) (w : World) :
  snapshots_sanitized parseFromString outerHTML w ->
  snapshots_sanitized parseFromString outerHTML (after' a w).
Proof.
  unfold snapshots_sanitized. intros H e html width height url He Hd.
  rewrite captured_after in He. apply in_app_iff in He.
  destruct He as [He | He]; [eapply H; eassumption |].
  revert He Hd. clear H.
  destruct a; added; intros He Hd;
    repeat (destruct He as [<- | He]); try contradiction;
    cbn in Hd; try discriminate.
  inversion Hd; subst.
  eapply sanitizeDOM_output; eassumption.
Qed.

Lemma new_snapshots_sanitized
      (cfg : SDKConfig) (rnd : string) (now : Z) (p : Page) :
  snapshots_sanitized parseFromString outerHTML (snd (new' cfg rnd now p)).
Proof.
  rewrite new_spec. unfold snapshots_sanitized.
  destruct (sanitizeDOM' (pageHTML p)) as [c | err] eqn:Hs;
    [destruct (hasBody p) |]; cbn;
    intros e html width height url He Hd;
    repeat (destruct He as [<- | He]; [cbn in Hd |]); try contradiction;
    try discriminate;
    inversion Hd; subst; eapply sanitizeDOM_output; eassumption.
Qed.

(** What the three passes do achieve.  Among the elements the selectors
    reach, none is a [script], none keeps an attribute whose name starts
    with [on], every password [input] holds the empty value and every
    hidden [input] has an empty [value] attribute.  The text [sanitizeDOM]
    returns is the serialization of the root of that document; it is this
    text that a snapshot cycle compares with the last one recorded and
    enqueues, and from construction on every snapshot event ever captured
    carries such a text. *)
Lemma sanitizeDOM_clears_what_its_selectors_reach :
  (forall doc,
     forallb (every_element not_script) (sanitize doc) = true
     /\ forallb (every_element no_handler_attribute) (sanitize doc) = true
     /\ forallb (every_element sensitive_value_cleared) (sanitize doc)
        = true)
  /\ (forall markup html,
        sanitizeDOM' markup = Normal html ->
        exists doc root,
          parseFromString markup = Some doc
          /\ documentElement (sanitize doc) = Some root
          /\ html = outerHTML root)
  /\ (forall w c,
        sanitizeDOM' (pageHTML (page w)) = Normal c ->
        events (this (snd (domSnapshotCallback parseFromString outerHTML w)))
        = events (this w)
          ++ (if c =? lastDOMSnapshot (this w) then []
              else [snapshot_event c (clock w) (page w)]))
  /\ (forall cfg rnd now p acts e html width height url,
        In e (captured (run' acts (snd (new' cfg rnd now p)))) ->
        data e = DomSnapshotData html width height url ->
        sanitized_output parseFromString outerHTML html).
Proof.
  split; [| split; [| split]].
  - intros doc. split; [| split].
    + apply DomFacts.sanitize_no_script.
    + apply DomFacts.sanitize_no_handler.
    + apply DomFacts.sanitize_clears_values.
  - intros markup html H. unfold sanitizeDOM in H.
    destruct (parseFromString markup) as [doc |] eqn:Hp; [| discriminate].
    destruct (documentElement (sanitize doc)) as [root |] eqn:Hr;
      [| discriminate].
    inversion H; subst. exists doc, root. auto.
  - intros w c Hs. rewrite (snapshot_cycle w c Hs). cbn.
    destruct (c =? lastDOMSnapshot (this w)); cbn;
      [now rewrite app_nil_r | reflexivity].
  - intros cfg rnd now p acts.
    apply (run_invariant (snapshots_sanitized parseFromString outerHTML));
      [intros a x; apply snapshots_sanitized_after
      | apply new_snapshots_sanitized].
Qed.

Lemma timer_snapshot (w : World) (c : string) (h : Z) :
  has_handle h (timeouts w) = true ->
  sanitizeDOM' (pageHTML (page w)) = Normal c ->
  (c =? lastDOMSnapshot (this w)) = false ->
  events (this (after' (TimeoutFires h) w))
  = events (this w) ++ [snapshot_event c (clock w) (page w)].
Proof.
  intros Hh Hs Hne. unfold_methods. cbn. rewrite Hh. cbn.
  rewrite Hs. cbn. rewrite Hne. reflexivity.
Qed.

Lemma sanitizeDOM_on_a_hidden_field (markup v : string) :
  parseFromString markup = Some [page_of [hidden_field v]] ->
  prints_no_held_value outerHTML ->
  sanitizeDOM' markup = Normal (outerHTML (page_of [hidden_field ""])).
Proof.
  intros Hp Hprint. unfold sanitizeDOM. rewrite Hp.
  change (sanitize [page_of [hidden_field v]])
    with [page_of [Element "input" [("type", "hidden"); ("value", "")]
                           v []]].
  cbn [documentElement page_of]. f_equal.
  rewrite (Hprint (page_of [hidden_field ""])).
  now rewrite Hprint.
Qed.

Lemma sanitizeDOM_on_a_password_field (markup secret : string) :
  parseFromString markup = Some [page_of [password_field secret]] ->
  prints_no_held_value outerHTML ->
  sanitizeDOM' markup = Normal (outerHTML (page_of [password_field secret])).
Proof.
  intros Hp Hprint. unfold sanitizeDOM. rewrite Hp.
  change (sanitize [page_of [password_field secret]])
    with [page_of [Element "input" [("type", "password"); ("value", secret)]
                           "" []]].
  cbn [documentElement page_of]. f_equal.
  rewrite (Hprint (page_of [password_field secret])).
  now rewrite Hprint.
Qed.

(** C4, on the code.  [sanitizeDOM] assigns [el.value = ''] and visits
    what its selectors reach; the text it returns prints attributes and
    children, the content of templates included.  So two things the
    claim promises are not done.  The assignment empties the value a
    password control holds, not its [value] attribute: whatever the
    document, every password [input] comes out with the [value] attribute
    it went in with, and markup that fills in a password field is returned
    with the password in it, as if it had not been sanitized; a snapshot
    cycle enqueues that text.  A hidden field in the same place does come
    back empty: there the assignment rewrites the attribute.  And no
    selector reaches into a template:
    whatever the document, every template comes out with the content it
    went in with, and a script or a handler inside it is still among
    what the returned text prints. *)
Theorem sanitizeDOM_keeps_password_attributes_and_template_contents :
  (forall doc,
     flat_map password_attributes (sanitize doc)
     = flat_map password_attributes (remove_scripts_doc doc))
  /\ (forall doc,
        flat_map template_contents (sanitize doc)
        = flat_map template_contents (remove_scripts_doc doc))
  /\ (forall markup secret,
        parseFromString markup = Some [page_of [password_field secret]] ->
        prints_no_held_value outerHTML ->
        sanitizeDOM' markup
        = Normal (outerHTML (page_of [password_field secret])))
  /\ (forall markup v,
        parseFromString markup = Some [page_of [hidden_field v]] ->
        prints_no_held_value outerHTML ->
        sanitizeDOM' markup = Normal (outerHTML (page_of [hidden_field ""])))
  /\ (forall markup inside,
        parseFromString markup = Some [page_of [Template [] inside]] ->
        sanitizeDOM' markup = Normal (outerHTML (page_of [Template [] inside])))
  /\ (forall p inside,
        forallb (every_printed_element p) inside = false ->
        forallb (every_printed_element p)
                (sanitize [page_of [Template [] inside]]) = false)
  /\ (forall w secret h,
        parseFromString (pageHTML (page w))
        = Some [page_of [password_field secret]] ->
        prints_no_held_value outerHTML ->
        has_handle h (timeouts w) = true ->
        (outerHTML (page_of [password_field secret])
         =? lastDOMSnapshot (this w)) = false ->
        events (this (after' (TimeoutFires h) w))
        = events (this w)
          ++ [snapshot_event (outerHTML (page_of [password_field secret]))
                             (clock w) (page w)]).
Proof.
  split; [apply DomFacts.sanitize_keeps_password_attributes |].
  split; [apply DomFacts.sanitize_keeps_template_contents |].
  split; [apply sanitizeDOM_on_a_password_field |].
  split; [apply sanitizeDOM_on_a_hidden_field |].
  split.
  { intros markup inside Hp. unfold sanitizeDOM. now rewrite Hp. }
  split.
  - intros p inside Hin.
    change (sanitize [page_of [Template [] inside]])
      with [page_of [Template [] inside]].
    cbn [forallb every_printed_element page_of]. rewrite Hin.
    now rewrite !andb_false_r.
  - intros w secret h Hp Hprint Hh Hne.
    apply timer_snapshot; [exact Hh | | exact Hne].
    now apply sanitizeDOM_on_a_password_field.
Qed.

(** C2, on the code.  Construct the object on a page whose sanitized
    text [c] is not empty, let one mutation be reported and the debounce
    timer fire while the page is still the same.  The constructor has
    enqueued the snapshot [c] without recording it: the last snapshot
    recorded is still the empty text.  The cycle therefore finds [c] new
    and enqueues it a second time: two consecutive computations of the
    same text, two events. *)
Theorem initial_snapshot_is_enqueued_twice
        (cfg : SDKConfig) (rnd : string) (now : Z) (p : Page) (c : string) :
  sanitizeDOM' (pageHTML p) = Normal c -> hasBody p = true -> c <> "" ->
  let w0 := snd (new' cfg rnd now p) in
  let w := run' [Mutation; TimeoutFires (nextHandle w0)] w0 in
  events (this w0) = [snapshot_event c now p; scroll_event now p]
  /\ lastDOMSnapshot (this w0) = ""
  /\ events (this w)
     = [snapshot_event c now p; scroll_event now p; snapshot_event c now p]
  /\ count_snapshots c (events (this w)) = 2%nat
  /\ lastDOMSnapshot (this w) = c.
Proof.
  intros Hs Hb Hc w0 w.
  assert (E0 : w0 = constructed cfg rnd now p
                      [snapshot_event c now p; scroll_event now p] true
                      (startup_lines ++ [capture_line; capture_line])).
  { subst w0. rewrite new_spec, Hs. cbv zeta. now rewrite Hb. }
  assert (Hne : (c =? lastDOMSnapshot (this w0)) = false).
  { rewrite E0. cbn. now apply String.eqb_neq. }
  destruct (mutation_snapshot w0 c) as [He Hl]; auto.
  { rewrite E0. reflexivity. }
  { rewrite E0. exact Hs. }
  fold w in He, Hl.
  assert (E : events (this w)
              = [snapshot_event c now p; scroll_event now p;
                 snapshot_event c now p]).
  { rewrite He, E0. reflexivity. }
  repeat split; auto.
  - rewrite E0. reflexivity.
  - rewrite E0. reflexivity.
  - rewrite E. unfold count_snapshots, is_snapshot_of. cbn.
    rewrite String.eqb_refl. reflexivity.
Qed.

(* =============================================================== *)
(** ** Construction *)

(** C6, as amended.  The constructor does not look for missing fields.
    It returns exactly when the page can be sanitized and has a body,
    whatever the configuration, and two configurations give the same
    outcome on the same page.  When it returns, the session is started:
    the flag is on, the flush interval is live and kept in
    [sendInterval], the three listeners and the observer are attached;
    [websiteId] and [apiEndpoint] are stored as they came, missing or
    not. *)
Theorem constructor_does_not_check_the_configuration
        (cfg : SDKConfig) (rnd : string) (now : Z) (p : Page) :
  (fst (new' cfg rnd now p) = Normal tt
   <-> (exists c, sanitizeDOM' (pageHTML p) = Normal c)
       /\ hasBody p = true)
  /\ (forall cfg', fst (new' cfg' rnd now p) = fst (new' cfg rnd now p))
  /\ (fst (new' cfg rnd now p) = Normal tt ->
      let w := snd (new' cfg rnd now p) in
      isRunning (this w) = true
      /\ intervals w = [(1, 1000)]
      /\ sendInterval (this w) = Some 1
      /\ listeners w = ["mousemove"; "click"; "scroll"]
      /\ observing w = true
      /\ websiteId (this w) = cfg_websiteId cfg
      /\ apiEndpoint (this w) = cfg_apiEndpoint cfg).
Proof.
  split; [| split].
  - rewrite new_spec.
    destruct (sanitizeDOM' (pageHTML p)) as [c | err]; cbv zeta;
      [destruct (hasBody p) |]; cbn; split;
      try discriminate; try (intros [[c' H] H']; discriminate); eauto.
  - intros cfg'. rewrite !new_spec.
    destruct (sanitizeDOM' (pageHTML p)); cbv zeta;
      [destruct (hasBody p) |]; reflexivity.
  - intros H w.
    destruct (new_normal cfg rnd now p H) as (c & _ & _ & E).
    subst w. rewrite E. cbn. repeat split.
Qed.

(** No handler stands anywhere on the snapshot path: an exception raised
    by [sanitizeDOM] would leave the callback of the timer and the
    constructor the same way. *)
Lemma sanitizeDOM_error_is_not_caught (w : World) (e : string) :
  sanitizeDOM' (pageHTML (page w)) = Throw e ->
  (forall h,
     has_handle h (timeouts w) = true ->
     fire' (TimeoutFires h) w
     = (Throw e, set_timeouts (drop_handle h (timeouts w)) w))
  /\ (forall cfg rnd now,
        new' cfg rnd now (page w)
        = (Throw e, constructed cfg rnd now (page w) [] false startup_lines)).
Proof.
  intros Hs. split.
  - intros h Hh. unfold_methods. cbn. rewrite Hh. cbn. now rewrite Hs.
  - intros cfg rnd now. rewrite new_spec, Hs. reflexivity.
Qed.

(** C7, as amended.  The snapshot cycle has no handler.  When the debounce
    timer fires on a document that has no root element, the read of
    [document.documentElement.outerHTML] raises, and the exception leaves
    the callback of the timer.  The failed cycle enqueues nothing and
    records nothing, it only uses up its timer.  Capture goes on: a click
    that follows is captured as before, and so is the next snapshot, once
    the document has a root again.  In the constructor the same read
    raises out of the constructor: the queue is empty, the listeners and
    the interval are installed, the observer is not. *)
Theorem snapshot_error_is_not_caught (w : World) (h : Z) :
  has_handle h (timeouts w) = true ->
  let w' := after' (TimeoutFiresWithoutRoot h) w in
  (exists e, fire' (TimeoutFiresWithoutRoot h) w = (Throw e, w'))
  /\ w' = set_timeouts (drop_handle h (timeouts w)) w
  /\ events (this w') = events (this w)
  /\ lastDOMSnapshot (this w') = lastDOMSnapshot (this w)
  /\ captured w' = captured w
  /\ listeners w' = listeners w
  /\ intervals w' = intervals w
  /\ (forall x y tagName,
        listens "click" w = true ->
        events (this (after' (Click x y tagName) w'))
        = events (this w) ++ [click_event x y tagName (clock w)])
  /\ (forall c,
        observing w = true ->
        sanitizeDOM' (pageHTML (page w)) = Normal c ->
        (c =? lastDOMSnapshot (this w)) = false ->
        events (this (run' [Mutation; TimeoutFires (nextHandle w)] w'))
        = events (this w) ++ [snapshot_event c (clock w) (page w)])
  /\ (forall cfg rnd now p,
        let built :=
          new_ReplaySDK_without_root parseFromString outerHTML
                                     cfg rnd now p in
        (exists e, fst built = Throw e)
        /\ events (this (snd built)) = []
        /\ listeners (snd built) = ["mousemove"; "click"; "scroll"]
        /\ intervals (snd built) = [(1, 1000)]
        /\ observing (snd built) = false).
Proof.
  intros Hh.
  assert (E : fire' (TimeoutFiresWithoutRoot h) w
              = (Throw "TypeError: Cannot read properties of null (reading 'outerHTML')",
                 set_timeouts (drop_handle h (timeouts w)) w)).
  { unfold_methods. cbn. rewrite Hh. reflexivity. }
  unfold after. rewrite E. cbn [snd]. cbv zeta.
  split; [eexists; reflexivity |].
  split; [reflexivity |]. split; [reflexivity |]. split; [reflexivity |].
  split; [reflexivity |]. split; [reflexivity |]. split; [reflexivity |].
  split.
  { intros x y tagName Hl.
    destruct (click_captured x y tagName
                (set_timeouts (drop_handle h (timeouts w)) w) Hl) as [_ Hc].
    exact Hc. }
  split.
  - intros c Ho Hs Hne.
    destruct (mutation_snapshot
                (set_timeouts (drop_handle h (timeouts w)) w) c Ho Hs Hne)
      as [Hev _].
    exact Hev.
  - intros cfg rnd now p. cbv zeta. rewrite new_without_root_spec. cbn.
    split; [eexists; reflexivity |]. repeat split.
Qed.

End Properties.

(* ================================================================= *)
(** ** The statements at work in the small browser *)

(** The demo serializer prints no held value. *)
Lemma serialize_prints_no_held_value : prints_no_held_value Demo.serialize.
Proof.
  intros n.
  induction n as [x | t a v cs IH | a c IH] using DomFacts.node_forall_ind;
    simpl.
  - reflexivity.
  - rewrite map_map.
    replace (map (fun k => Demo.serialize (without_held_values k)) cs)
      with (map Demo.serialize cs); [reflexivity |].
    induction IH as [| k cs Hk _ IHcs]; simpl; [reflexivity |].
    now rewrite <- Hk, IHcs.
  - rewrite map_map.
    replace (map (fun k => Demo.serialize (without_held_values k)) c)
      with (map Demo.serialize c); [reflexivity |].
    induction IH as [| k c Hk _ IHc]; simpl; [reflexivity |].
    now rewrite <- Hk, IHc.
Qed.

(** C4 at work: the login form comes back with the password in its
    markup, the template with its script and its handler, and the
    snapshot cycle enqueues the login form as it is. *)
Lemma sanitizer_witness :
  Demo.parse Demo.login_markup = Some [page_of [password_field "secret"]]
  /\ Demo.parse Demo.template_markup
     = Some [page_of [Template [] Demo.stowed]]
  /\ prints_no_held_value Demo.serialize
  /\ sanitizeDOM Demo.parse Demo.serialize Demo.login_markup
     = Normal Demo.login_snapshot
  /\ sanitizeDOM Demo.parse Demo.serialize Demo.template_markup
     = Normal Demo.template_snapshot
  /\ events (this (after Demo.parse Demo.serialize (TimeoutFires 2)
                         Demo.before_login_snapshot))
     = events (this Demo.before_login_snapshot)
       ++ [snapshot_event Demo.login_snapshot
             (clock Demo.before_login_snapshot)
             (page Demo.before_login_snapshot)].
Proof.
  assert (H1 : Demo.parse Demo.login_markup
               = Some [page_of [password_field "secret"]])
    by (vm_compute; reflexivity).
  assert (H2 : Demo.parse Demo.template_markup
               = Some [page_of [Template [] Demo.stowed]])
    by (vm_compute; reflexivity).
  assert (H3 : Demo.parse (pageHTML (page Demo.before_login_snapshot))
               = Some [page_of [password_field "secret"]])
    by (vm_compute; reflexivity).
  assert (H4 : has_handle 2 (timeouts Demo.before_login_snapshot) = true)
    by (vm_compute; reflexivity).
  assert (H5 : (Demo.serialize (page_of [password_field "secret"])
                =? lastDOMSnapshot (this Demo.before_login_snapshot))
               = false)
    by (vm_compute; reflexivity).
  split; [exact H1 |]. split; [exact H2 |].
  split; [exact serialize_prints_no_held_value |].
  split; [| split].
  - exact (proj1 (proj2 (proj2
             (sanitizeDOM_keeps_password_attributes_and_template_contents
                Demo.parse Demo.serialize)))
             Demo.login_markup "secret" H1 serialize_prints_no_held_value).
  - exact (proj1 (proj2 (proj2 (proj2 (proj2
             (sanitizeDOM_keeps_password_attributes_and_template_contents
                Demo.parse Demo.serialize)))))
             Demo.template_markup Demo.stowed H2).
  - exact (proj2 (proj2 (proj2 (proj2 (proj2 (proj2
             (sanitizeDOM_keeps_password_attributes_and_template_contents
                Demo.parse Demo.serialize))))))
             Demo.before_login_snapshot "secret" 2 H3
             serialize_prints_no_held_value H4 H5).
Defined.

(** The timestamps of two captured moves can lie closer than the readings
    the throttle compared: the first move is stamped after the listener
    has read the clock. *)
Lemma late_stamp_shares_a_window :
  accepted_at Demo.parse Demo.serialize "mouseMove" Demo.with_a_late_stamp
              Demo.started
  = [1700000000100; 1700000000151]
  /\ map timestamp
       (filter (of_type "mouseMove")
          (captured_during Demo.parse Demo.serialize Demo.with_a_late_stamp
                           Demo.started))
     = [1700000000101; 1700000000151]
  /\ count_in_window "mouseMove" 1700000000101 50
       (captured_during Demo.parse Demo.serialize Demo.with_a_late_stamp
                        Demo.started)
     = 2%nat.
Proof. repeat split; vm_compute; reflexivity. Qed.


(** C1 as the specification has it fails when two sends overlap: the click
    captured last is delivered first. *)
Lemma overlapping_sends_deliver_out_of_order :
  ~ delivered_in_capture_order (Demo.play Demo.overlapping_sends Demo.started)
  /\ map type (captured (Demo.play Demo.overlapping_sends Demo.started))
     = ["domSnapshot"; "scroll"; "click"]
  /\ map type (delivered (Demo.play Demo.overlapping_sends Demo.started))
     = ["click"; "domSnapshot"; "scroll"].
Proof.
  split; [| split; vm_compute; reflexivity].
  intros [rest H]. vm_compute in H. discriminate.
Qed.

Lemma capture_order_witness :
  one_send_at_a_time Demo.parse Demo.serialize Demo.retry_once Demo.started
  = true
  /\ in_capture_order (Demo.play Demo.retry_once Demo.started)
  /\ map type (delivered (Demo.play Demo.retry_once Demo.started))
     = ["domSnapshot"; "scroll"; "click"; "click"].
Proof.
  assert (H : one_send_at_a_time Demo.parse Demo.serialize Demo.retry_once
                Demo.started = true) by (vm_compute; reflexivity).
  split; [exact H |]. split; [| vm_compute; reflexivity].
  exact (proj1 (proj1 (proj2 (capture_order_without_overlapping_sends
                                Demo.parse Demo.serialize Demo.config
                                "0.abcdef" Demo.start_time Demo.the_page
                                Demo.retry_once)) H)).
Defined.

Lemma empty_flush_witness :
  events (this Demo.drained) = []
  /\ sendEvents Demo.drained = (Normal tt, Demo.drained).
Proof.
  assert (H : events (this Demo.drained) = []) by (vm_compute; reflexivity).
  split; [exact H |].
  exact (proj1 (proj1 (empty_flush_is_a_no_op_and_a_cycle_sends_once
                         Demo.parse Demo.serialize)
                  Demo.drained H)).
Defined.

Lemma stop_witness :
  sendInterval (this Demo.started) = Some 1
  /\ has_handle 1 (intervals (snd (stop Demo.started))) = false.
Proof.
  assert (H : sendInterval (this Demo.started) = Some 1)
    by (vm_compute; reflexivity).
  split; [exact H |].
  assert (Hne : 1 <> 0) by discriminate.
  exact (proj1 (proj1 (proj2 (proj2 (stop_cancels_the_timer_and_nothing_else
                                       Demo.parse Demo.serialize Demo.started)))
                  1 H Hne)).
Defined.

Lemma unparseable_body_witness :
  take_suspended 0 AwaitingJson
    (suspended (Demo.play Demo.awaiting_body Demo.started))
  = Some (Demo.first_batch, [])
  /\ events (this (after Demo.parse Demo.serialize (JsonSettles 0 false)
                         (Demo.play Demo.awaiting_body Demo.started)))
     = eventsToSend Demo.first_batch
       ++ events (this (Demo.play Demo.awaiting_body Demo.started)).
Proof.
  assert (H : take_suspended 0 AwaitingJson
                (suspended (Demo.play Demo.awaiting_body Demo.started))
              = Some (Demo.first_batch, [])) by (vm_compute; reflexivity).
  split; [exact H |].
  exact (proj1 (proj2 (unparseable_body_requeues_received_batch
                         Demo.parse Demo.serialize Demo.config "0.abcdef"
                         Demo.start_time Demo.the_page Demo.awaiting_body
                         0 Demo.first_batch []) H)).
Defined.

Lemma after_stop_witness :
  fst (new_ReplaySDK Demo.parse Demo.serialize Demo.config "0.abcdef"
         Demo.start_time Demo.the_page) = Normal tt
  /\ intervals (Demo.play [Click 3 4 "A"]
                  (after Demo.parse Demo.serialize Stop
                     (Demo.play [Click 1 2 "BUTTON"] Demo.started))) = [].
Proof.
  assert (H : fst (new_ReplaySDK Demo.parse Demo.serialize Demo.config
                     "0.abcdef" Demo.start_time Demo.the_page) = Normal tt)
    by (vm_compute; reflexivity).
  split; [exact H |].
  exact (proj1 (proj2 (proj2 (capture_goes_on_after_stop
                                Demo.parse Demo.serialize Demo.config
                                "0.abcdef" Demo.start_time Demo.the_page
                                [Click 1 2 "BUTTON"] [Click 3 4 "A"] H)))).
Defined.

Lemma twice_enqueued_witness :
  sanitizeDOM Demo.parse Demo.serialize (pageHTML Demo.the_page)
  = Normal Demo.sanitized_markup
  /\ hasBody Demo.the_page = true
  /\ Demo.sanitized_markup <> ""
  /\ count_snapshots Demo.sanitized_markup
       (events (this (Demo.play [Mutation; TimeoutFires (nextHandle Demo.started)]
                                Demo.started)))
     = 2%nat.
Proof.
  assert (Hs : sanitizeDOM Demo.parse Demo.serialize (pageHTML Demo.the_page)
               = Normal Demo.sanitized_markup) by (vm_compute; reflexivity).
  assert (Hb : hasBody Demo.the_page = true) by reflexivity.
  assert (Hc : Demo.sanitized_markup <> "") by discriminate.
  split; [exact Hs |]. split; [exact Hb |]. split; [exact Hc |].
  exact (proj1 (proj2 (proj2 (proj2
           (initial_snapshot_is_enqueued_twice
              Demo.parse Demo.serialize Demo.config "0.abcdef"
              Demo.start_time Demo.the_page Demo.sanitized_markup
              Hs Hb Hc))))).
Defined.

(** C6 as the specification has it fails: a configuration without
    [websiteId] constructs a running session. *)
Lemma missing_websiteId_is_accepted :
  cfg_websiteId Demo.config_without_site = None
  /\ fst (new_ReplaySDK Demo.parse Demo.serialize Demo.config_without_site
            "0.abcdef" Demo.start_time Demo.the_page) = Normal tt
  /\ isRunning (this (snd (new_ReplaySDK Demo.parse Demo.serialize
                             Demo.config_without_site "0.abcdef"
                             Demo.start_time Demo.the_page))) = true
  /\ intervals (snd (new_ReplaySDK Demo.parse Demo.serialize
                       Demo.config_without_site "0.abcdef"
                       Demo.start_time Demo.the_page)) = [(1, 1000)].
Proof. repeat split; vm_compute; reflexivity. Qed.

Lemma constructor_witness :
  fst (new_ReplaySDK Demo.parse Demo.serialize Demo.config_without_site
         "0.abcdef" Demo.start_time Demo.the_page) = Normal tt
  /\ websiteId (this (snd (new_ReplaySDK Demo.parse Demo.serialize
                             Demo.config_without_site "0.abcdef"
                             Demo.start_time Demo.the_page)))
     = cfg_websiteId Demo.config_without_site.
Proof.
  assert (H : fst (new_ReplaySDK Demo.parse Demo.serialize
                     Demo.config_without_site "0.abcdef" Demo.start_time
                     Demo.the_page) = Normal tt) by (vm_compute; reflexivity).
  split; [exact H |].
  exact (proj1 (proj2 (proj2 (proj2 (proj2 (proj2
           (proj2 (proj2 (constructor_does_not_check_the_configuration
                            Demo.parse Demo.serialize
                            Demo.config_without_site "0.abcdef"
                            Demo.start_time Demo.the_page)) H))))))).
Defined.

(** C7 as the specification has it fails: when the debounce timer fires
    on a document without a root element, the exception leaves the
    callback. *)
Lemma snapshot_error_leaves_the_callback :
  has_handle 2 (timeouts Demo.before_snapshot) = true
  /\ fst (fire Demo.parse Demo.serialize (TimeoutFiresWithoutRoot 2)
            Demo.before_snapshot)
     = Throw "TypeError: Cannot read properties of null (reading 'outerHTML')".
Proof. split; vm_compute; reflexivity. Qed.

Lemma snapshot_error_witness :
  has_handle 2 (timeouts Demo.before_snapshot) = true
  /\ after Demo.parse Demo.serialize (TimeoutFiresWithoutRoot 2)
           Demo.before_snapshot
     = set_timeouts (drop_handle 2 (timeouts Demo.before_snapshot))
                    Demo.before_snapshot
  /\ events (this (after Demo.parse Demo.serialize (TimeoutFiresWithoutRoot 2)
                         Demo.before_snapshot))
     = events (this Demo.before_snapshot).
Proof.
  assert (H : has_handle 2 (timeouts Demo.before_snapshot) = true)
    by (vm_compute; reflexivity).
  split; [exact H |].
  split.
  - exact (proj1 (proj2 (snapshot_error_is_not_caught
                           Demo.parse Demo.serialize Demo.before_snapshot
                           2 H))).
  - exact (proj1 (proj2 (proj2 (snapshot_error_is_not_caught
                                  Demo.parse Demo.serialize
                                  Demo.before_snapshot 2 H)))).
Defined.

(* ================================================================= *)
(** * Further properties *)

(* ================================================================= *)
(** ** What the sanitizer leaves alone *)

Lemma keep_all_non_scripts (cs : list node) :
  Forall (fun c => every_element not_script c = true -> remove_scripts c = c)
         cs ->
  forallb (every_element not_script) cs = true ->
  flat_map (fun c => if is_script c then [] else [remove_scripts c]) cs = cs.
Proof.
  induction 1 as [| c cs Hc _ IH]; simpl; intros H; [reflexivity |].
  apply andb_true_iff in H. destruct H as [H1 H2].
  assert (Hs : is_script c = false).
  { destruct c as [t a v l | a l | s]; [| reflexivity | reflexivity].
    simpl in H1. apply andb_true_iff in H1. destruct H1 as [H1 _].
    unfold not_script in H1. simpl. now apply negb_true_iff in H1. }
  rewrite Hs. simpl. now rewrite (Hc H1), (IH H2).
Qed.

Lemma remove_scripts_fixed (n : node) :
  every_element not_script n = true -> remove_scripts n = n.
Proof.
  induction n as [s | t a v cs IH | a c _] using DomFacts.node_forall_ind;
    intros H.
  - reflexivity.
  - simpl in *. apply andb_true_iff in H. destruct H as [_ H].
    f_equal. now apply keep_all_non_scripts.
  - reflexivity.
Qed.

Lemma map_fixed {A : Type} (f : A -> A) (p : A -> bool) (l : list A) :
  Forall (fun x => p x = true -> f x = x) l ->
  forallb p l = true -> map f l = l.
Proof.
  induction 1 as [| x l Hx _ IH]; simpl; intros H; [reflexivity |].
  apply andb_true_iff in H. destruct H as [H1 H2].
  now rewrite (Hx H1), (IH H2).
Qed.

Lemma filter_all {A : Type} (p : A -> bool) (l : list A) :
  forallb p l = true -> filter p l = l.
Proof.
  induction l as [| x l IH]; simpl; intros H; [reflexivity |].
  apply andb_true_iff in H. destruct H as [H1 H2].
  now rewrite H1, (IH H2).
Qed.

Lemma remove_handlers_fixed (n : node) :
  every_element no_handler_attribute n = true -> remove_handlers n = n.
Proof.
  induction n as [s | t a v cs IH | a c _] using DomFacts.node_forall_ind;
    intros H.
  - reflexivity.
  - simpl in *. apply andb_true_iff in H. destruct H as [Ha H].
    rewrite DomFacts.remove_handler_attributes_filter.
    unfold no_handler_attribute in Ha. rewrite (filter_all _ _ Ha).
    f_equal. now apply (map_fixed _ (every_element no_handler_attribute)).
  - simpl in *. rewrite DomFacts.remove_handler_attributes_filter.
    unfold no_handler_attribute in H. now rewrite (filter_all _ _ H).
Qed.

Lemma clear_sensitive_fixed (n : node) :
  every_element sensitive_value_cleared n = true -> clear_sensitive n = n.
Proof.
  induction n as [s | t a v cs IH | a c _] using DomFacts.node_forall_ind;
    intros H.
  - reflexivity.
  - simpl in *. apply andb_true_iff in H. destruct H as [Hv H].
    rewrite (map_fixed _ (every_element sensitive_value_cleared) _ IH H).
    unfold sensitive_value_cleared in Hv.
    apply andb_true_iff in Hv. destruct Hv as [Hp Hh].
    destruct (DomFacts.sensitive_cases t a)
      as [[-> E] | [[-> E] | [E _]]].
    + rewrite DomFacts.clear_value_password by exact E.
      rewrite E in Hp. simpl in Hp. apply String.eqb_eq in Hp. now subst v.
    + rewrite DomFacts.clear_value_hidden by exact E.
      rewrite E in Hh. simpl in Hh.
      destruct (getAttribute "value" a) as [x |] eqn:Ex; [| discriminate].
      apply String.eqb_eq in Hh. subst x. simpl.
      now rewrite (DomFacts.setAttribute_present _ _ _ Ex).
    + now rewrite DomFacts.clear_value_other.
  - reflexivity.
Qed.

Lemma sanitize_fixed (d : document) :
  forallb (every_element not_script) d = true ->
  forallb (every_element no_handler_attribute) d = true ->
  forallb (every_element sensitive_value_cleared) d = true ->
  sanitize d = d.
Proof.
  intros H1 H2 H3. unfold sanitize, remove_scripts_doc.
  rewrite keep_all_non_scripts; [| | exact H1].
  - rewrite (map_fixed remove_handlers (every_element no_handler_attribute) d);
      [| | exact H2].
    + apply (map_fixed _ (every_element sensitive_value_cleared)); [| exact H3].
      apply Forall_forall. intros n _. apply clear_sensitive_fixed.
    + apply Forall_forall. intros n _. apply remove_handlers_fixed.
  - apply Forall_forall. intros n _. apply remove_scripts_fixed.
Qed.

(** X1.  The loop of [sanitizeDOM] over the copied attribute array, which
    calls [removeAttribute] on the live element for every name that starts
    with [on], returns the other attributes and nothing else, in their
    order and with their values, also when a name occurs more than once. *)
Theorem handler_loop_is_a_filter (a : list attr) :
  remove_handler_attributes a = filter keeps a
  /\ forall n v, In (n, v) (remove_handler_attributes a)
                 <-> In (n, v) a /\ is_handler_name n = false.
Proof.
  split; [apply DomFacts.remove_handler_attributes_filter |].
  intros n v. rewrite DomFacts.remove_handler_attributes_filter, filter_In.
  unfold keeps. simpl. now rewrite negb_true_iff.
Qed.

(** X2.  The three passes do nothing else: a document in which the
    selectors reach no [script] element and no attribute whose name
    starts with [on], whose password inputs hold the empty value and
    whose hidden inputs have a [value] attribute that is empty, comes out
    as it went in.  A hidden input without the attribute is not left
    alone: the assignment gives it one. *)
Theorem sanitize_leaves_a_clean_document_alone (d : document) :
  forallb (every_element not_script) d = true ->
  forallb (every_element no_handler_attribute) d = true ->
  forallb (every_element sensitive_value_cleared) d = true ->
  sanitize d = d.
Proof. apply sanitize_fixed. Qed.

(** X3.  Sanitizing is idempotent: the three passes, run on their own
    result, change nothing. *)
Theorem sanitize_is_idempotent (d : document) :
  sanitize (sanitize d) = sanitize d.
Proof.
  apply sanitize_fixed.
  - apply DomFacts.sanitize_no_script.
  - apply DomFacts.sanitize_no_handler.
  - apply DomFacts.sanitize_clears_values.
Qed.

Lemma values_of_remove_handlers (tag : string) (n : node) :
  values_of tag (remove_handlers n) = values_of tag n.
Proof.
  induction n as [s | t a v cs IH | a c _] using DomFacts.node_forall_ind;
    simpl.
  - reflexivity.
  - f_equal. induction IH as [| c cs Hc _ IHcs]; simpl; [reflexivity |].
    now rewrite Hc, IHcs.
  - reflexivity.
Qed.

Lemma values_of_clear_sensitive (tag : string) (n : node) :
  tag <> "input" ->
  values_of tag (clear_sensitive n) = values_of tag n.
Proof.
  intros Htag.
  induction n as [s | t a v cs IH | a c _] using DomFacts.node_forall_ind;
    simpl.
  - reflexivity.
  - f_equal.
    + destruct (t =? tag) eqn:Et; [| reflexivity].
      apply String.eqb_eq in Et. subst t.
      rewrite DomFacts.clear_value_other; [reflexivity |].
      destruct (DomFacts.sensitive_cases tag a)
        as [[-> _] | [[-> _] | [E _]]]; [contradiction | contradiction |].
      exact E.
    + induction IH as [| c cs Hc _ IHcs]; simpl; [reflexivity |].
      now rewrite Hc, IHcs.
  - reflexivity.
Qed.

Lemma flat_map_values_of (tag : string) (f : node -> node) (d : list node) :
  (forall n, values_of tag (f n) = values_of tag n) ->
  flat_map (values_of tag) (map f d) = flat_map (values_of tag) d.
Proof.
  intros H. induction d as [| n d IH]; simpl; [reflexivity |].
  now rewrite H, IH.
Qed.

(** X4.  Only [input] elements can lose their value.  For any other
    element name, [textarea] included and whatever its [type] attribute
    says, the values found in the sanitized document are the values of
    the document once its scripts are removed: the test on [el.type]
    never holds for a [textarea]. *)
Theorem sanitize_clears_no_value_but_an_input (tag : string) (d : document) :
  tag <> "input" ->
  flat_map (values_of tag) (sanitize d)
  = flat_map (values_of tag) (remove_scripts_doc d).
Proof.
  intros Htag. unfold sanitize.
  rewrite flat_map_values_of
    by (intros n; now apply values_of_clear_sensitive).
  apply flat_map_values_of. intros n. apply values_of_remove_handlers.
Qed.

(* ================================================================= *)
(** ** The object along any run *)

Section Further.

Variable parseFromString : string -> option document.
Variable outerHTML : node -> string.

Local Abbreviation sanitizeDOM' := (sanitizeDOM parseFromString outerHTML).
Local Abbreviation after' := (after parseFromString outerHTML).
Local Abbreviation fire' := (fire parseFromString outerHTML).
Local Abbreviation run' := (run parseFromString outerHTML).
Local Abbreviation new' := (new_ReplaySDK parseFromString outerHTML).
Local Abbreviation during' := (captured_during parseFromString outerHTML).

(** What one turn adds to the capture log. *)
Ltac added :=
  unfold captured_during;
  match goal with
  | |- context [run parseFromString outerHTML [?a] ?w] =>
      change (run parseFromString outerHTML [a] w)
        with (after parseFromString outerHTML a w)
  end;
  step; rewrite ?skipn_length_app, ?skipn_all; cbn.

(** *** The debounce timer *)

Lemma drop_only (h d : Z) : drop_handle h [(h, d)] = [].
Proof. unfold drop_handle. simpl. now rewrite Z.eqb_refl. Qed.

Lemma has_handle_single (h h' d : Z) :
  has_handle h [(h', d)] = true -> h' = h.
Proof.
  unfold has_handle. simpl. rewrite orb_false_r. apply Z.eqb_eq.
Qed.

Lemma one_pending_after (a : Action) (w : World) :
  one_pending_snapshot w -> one_pending_snapshot (after' a w).
Proof.
  unfold one_pending_snapshot.
  destruct a; step; intros [Hpos H]; try (split; assumption).
  all: try (destruct H as [H | (h0 & H & Hs & Hne)]; rewrite H in *;
            try rewrite Hs in *).
  all: repeat match goal with
              | E : Some _ = Some _ |- _ => inversion E; subst; clear E
              | E : Some _ = None |- _ => discriminate E
              | E : None = Some _ |- _ => discriminate E
              | E : has_handle _ [] = true |- _ => discriminate E
              | E : has_handle _ [(_, _)] = true |- _ =>
                  apply has_handle_single in E; subst
              | E : truthy (Some ?z) = false, N : ?z <> 0 |- _ =>
                  exfalso; apply N; simpl in E;
                  apply negb_false_iff, Z.eqb_eq in E; exact E
              end.
  all: rewrite ?drop_only; cbn.
  all: try (split; [lia |]).
  all: try (left; reflexivity).
  all: try (right; eexists; repeat split; lia).
Qed.

Lemma new_one_pending (cfg : SDKConfig) (rnd : string) (now : Z) (p : Page) :
  one_pending_snapshot (snd (new' cfg rnd now p)).
Proof.
  rewrite new_spec. unfold one_pending_snapshot.
  destruct (sanitizeDOM' (pageHTML p)); [destruct (hasBody p) |]; cbn;
    (split; [lia | now left]).
Qed.

Lemma mutation_resets (w : World) :
  one_pending_snapshot w -> observing w = true ->
  timeouts (after' Mutation w) = [(nextHandle w, 1000)]
  /\ nextHandle (after' Mutation w) = nextHandle w + 1.
Proof.
  unfold one_pending_snapshot. intros [Hpos H] Ho.
  unfold_methods. cbn. rewrite Ho. cbn.
  destruct (domSnapshotTimeout (this w)) as [z |] eqn:Ez; cbn;
    [destruct (Z.eqb z 0) eqn:Ezz; cbn |];
    (destruct H as [H | (h0 & H & Hs & Hne)];
     [rewrite H; cbn; auto | try discriminate]).
  - apply Z.eqb_eq in Ezz. congruence.
  - inversion Hs; subst. rewrite H, drop_only. cbn. auto.
Qed.

Lemma burst_of_mutations (k : nat) (w : World) :
  one_pending_snapshot w -> observing w = true ->
  timeouts (run' (repeat Mutation (S k)) w)
  = [(nextHandle w + Z.of_nat k, 1000)].
Proof.
  revert w. induction k as [| k IH]; intros w H Ho.
  - destruct (mutation_resets w H Ho) as [E _]. simpl.
    rewrite Z.add_0_r. exact E.
  - change (run' (repeat Mutation (S (S k))) w)
      with (run' (repeat Mutation (S k)) (after' Mutation w)).
    destruct (mutation_resets w H Ho) as [_ En].
    rewrite IH.
    + rewrite En. f_equal. f_equal. lia.
    + now apply one_pending_after.
    + now rewrite observing_after.
Qed.

(** X5.  From construction on at most one debounce timer is pending.  A
    burst of mutation reports leaves exactly one, the one set by the last
    report: each report cancels the timer of the one before, whose handle
    then calls back into nothing. *)
Theorem mutations_are_debounced
        (cfg : SDKConfig) (rnd : string) (now : Z) (p : Page)
        (acts : list Action) :
  let w := run' acts (snd (new' cfg rnd now p)) in
  (List.length (timeouts w) <= 1)%nat
  /\ forall k,
       observing w = true ->
       let w' := run' (repeat Mutation (S k)) w in
       timeouts w' = [(nextHandle w + Z.of_nat k, 1000)]
       /\ forall h, h <> nextHandle w + Z.of_nat k ->
                    after' (TimeoutFires h) w' = w'.
Proof.
  intros w.
  assert (H : one_pending_snapshot w).
  { apply (run_invariant parseFromString outerHTML one_pending_snapshot);
      [intros a x; apply one_pending_after | apply new_one_pending]. }
  split.
  - destruct H as [_ [H | (h & H & _)]]; rewrite H; simpl; lia.
  - intros k Ho w'.
    assert (E : timeouts w' = [(nextHandle w + Z.of_nat k, 1000)])
      by now apply burst_of_mutations.
    split; [exact E |].
    clearbody w'. intros h Hh. unfold_methods. cbn. rewrite E.
    replace (has_handle h [(nextHandle w + Z.of_nat k, 1000)]) with false;
      [reflexivity |].
    unfold has_handle. simpl. rewrite orb_false_r.
    symmetry. apply Z.eqb_neq. congruence.
Qed.

(** *** Identity and requests *)

Lemma identity_after (a : Action) (w : World) :
  websiteId (this (after' a w)) = websiteId (this w)
  /\ sessionId (this (after' a w)) = sessionId (this w)
  /\ apiEndpoint (this (after' a w)) = apiEndpoint (this w)
  /\ debug (this (after' a w)) = debug (this w).
Proof. destruct a; step; auto. Qed.

(** X7.  What the constructor stores of the configuration, and the
    session identifier it generates, stay as they are for the life of the
    object, through every capture, send, failure and [stop]. *)
Theorem identity_is_fixed_at_construction
        (cfg : SDKConfig) (rnd : string) (now : Z) (p : Page)
        (acts : list Action) :
  let w := run' acts (snd (new' cfg rnd now p)) in
  websiteId (this w) = cfg_websiteId cfg
  /\ apiEndpoint (this w) = cfg_apiEndpoint cfg
  /\ debug (this w) = or_false (cfg_debug cfg)
  /\ sessionId (this w)
     = (substring 2 (String.length rnd - 2) rnd ++ toString36 now)%string.
Proof.
  cbv zeta.
  apply (run_invariant parseFromString outerHTML
           (fun x => websiteId (this x) = cfg_websiteId cfg
                     /\ apiEndpoint (this x) = cfg_apiEndpoint cfg
                     /\ debug (this x) = or_false (cfg_debug cfg)
                     /\ sessionId (this x)
                        = (substring 2 (String.length rnd - 2) rnd
                           ++ toString36 now)%string)).
  - intros a x (H1 & H2 & H3 & H4).
    destruct (identity_after a x) as (E1 & E2 & E3 & E4).
    repeat split; congruence.
  - rewrite new_spec.
    destruct (sanitizeDOM' (pageHTML p)); [destruct (hasBody p) |]; cbn; auto.
Qed.

(** A turn issues no request, or it is a live interval firing on a queue
    that holds something, and the request is the one [sendEvents] builds. *)
Lemma requests_after (a : Action) (w : World) :
  requests (after' a w) = requests w
  \/ (exists h, a = IntervalFires h /\ has_handle h (intervals w) = true)
     /\ events (this w) <> []
     /\ requests (after' a w)
        = requests w
          ++ [{| rq_url := (template_text (apiEndpoint (this w))
                            ++ "/api/events")%string;
                 rq_method := "POST";
                 rq_sessionId := sessionId (this w);
                 rq_websiteId := websiteId (this w);
                 rq_events := events (this w) |}].
Proof.
  destruct a; step; auto.
  right. repeat split; eauto.
  intros E. rewrite E in *. discriminate.
Qed.

Lemma queue_was_captured (w : World) (e : EventData) :
  conserved w -> In e (events (this w)) -> In e (captured w).
Proof.
  unfold conserved. intros H He.
  eapply Permutation_in; [symmetry; exact H |].
  apply in_app_iff. right. apply in_app_iff. now right.
Qed.

Lemma requests_ok_after (a : Action) (w : World) :
  conserved w -> requests_ok w -> requests_ok (after' a w).
Proof.
  unfold requests_ok, well_formed_request. intros Hc H rq Hin.
  destruct (identity_after a w) as (E1 & E2 & E3 & _).
  rewrite E1, E2, E3, captured_after.
  destruct (requests_after a w) as [E | (_ & Hne & E)]; rewrite E in Hin.
  - destruct (H rq Hin) as [Hw Hi]. split; [exact Hw |].
    intros e He. apply in_app_iff. left. now apply Hi.
  - apply in_app_iff in Hin. destruct Hin as [Hin | [<- | []]].
    + destruct (H rq Hin) as [Hw Hi]. split; [exact Hw |].
      intros e He. apply in_app_iff. left. now apply Hi.
    + cbn. repeat split; auto.
      intros e He. apply in_app_iff. left. now apply queue_was_captured.
Qed.

(** X6.  From construction on, every request the object has issued is a
    POST to its endpoint followed by [/api/events], carries the session
    and site identifiers of the object, and a batch that is not empty and
    holds captured events only. *)
Theorem every_request_is_well_formed
        (cfg : SDKConfig) (rnd : string) (now : Z) (p : Page)
        (acts : list Action) (rq : Request) :
  let w := run' acts (snd (new' cfg rnd now p)) in
  In rq (requests w) ->
  well_formed_request (this w) rq /\ incl (rq_events rq) (captured w).
Proof.
  cbv zeta.
  assert (H : forall l x, conserved x -> requests_ok x ->
                          requests_ok (run' l x)).
  { induction l as [| a l IH]; intros x Hc Hr; simpl; [exact Hr |].
    apply IH; [now apply conserved_after | now apply requests_ok_after]. }
  apply H; [apply new_conserved |].
  rewrite new_spec. unfold requests_ok.
  destruct (sanitizeDOM' (pageHTML p)); [destruct (hasBody p) |]; cbn;
    intros x [].
Qed.

(** *** Delivery *)

Lemma delivered_after (a : Action) (w : World) :
  delivered (after' a w) = delivered w
  \/ exists id act rest,
       take_suspended id AwaitingJson (suspended w) = Some (act, rest)
       /\ delivered (after' a w) = delivered w ++ eventsToSend act.
Proof.
  destruct a; step; auto.
  right. eauto.
Qed.

Lemma requests_kept (a : Action) (w : World) (rq : Request) :
  In rq (requests w) -> In rq (requests (after' a w)).
Proof.
  intros H. destruct (requests_after a w) as [E | (_ & _ & E)]; rewrite E;
    [exact H | apply in_app_iff; now left].
Qed.

Lemma delivered_was_sent_after (a : Action) (w : World) :
  parked_ok w -> delivered_was_sent w -> delivered_was_sent (after' a w).
Proof.
  unfold delivered_was_sent. intros [Hnd Hall] H e He.
  destruct (delivered_after a w) as [E | (id & act & rest & T & E)];
    rewrite E in He.
  - destruct (H e He) as (rq & Hrq & Hin). exists rq.
    split; [now apply requests_kept | exact Hin].
  - apply in_app_iff in He. destruct He as [He | He].
    + destruct (H e He) as (rq & Hrq & Hin). exists rq.
      split; [now apply requests_kept | exact Hin].
    + destruct (take_suspended_rest _ _ _ _ _ T Hnd) as (_ & _ & _ & Hact).
      destruct (Hall act Hact) as (_ & rq & Hrq & Hev).
      exists rq. split; [| now rewrite Hev].
      apply requests_kept. eapply nth_error_In. exact Hrq.
Qed.

(** X13.  From construction on, the success branch of [sendEvents] is
    only ever reached with a batch that a request has carried: every event
    counted as delivered is in the body of a request that was issued, and
    was captured before. *)
Theorem what_is_delivered_was_sent
        (cfg : SDKConfig) (rnd : string) (now : Z) (p : Page)
        (acts : list Action) (e : EventData) :
  let w := run' acts (snd (new' cfg rnd now p)) in
  In e (delivered w) ->
  (exists rq, In rq (requests w) /\ In e (rq_events rq))
  /\ In e (captured w).
Proof.
  cbv zeta. intros He. split.
  - revert e He.
    assert (H : forall l x, parked_ok x -> delivered_was_sent x ->
                            delivered_was_sent (run' l x)).
    { induction l as [| a l IH]; intros x Hp Hd; simpl; [exact Hd |].
      apply IH; [now apply parked_ok_after | now apply delivered_was_sent_after]. }
    apply H; [apply new_parked_ok |].
    rewrite new_spec. unfold delivered_was_sent.
    destruct (sanitizeDOM' (pageHTML p)); [destruct (hasBody p) |]; cbn;
      intros x [].
  - assert (Hc : conserved (run' acts (snd (new' cfg rnd now p))))
      by apply conserved_run, new_conserved.
    unfold conserved in Hc.
    eapply Permutation_in; [symmetry; exact Hc |].
    apply in_app_iff. now left.
Qed.

(** *** The console *)

Lemma console_after (a : Action) (w : World) :
  debug (this w) = false -> console (after' a w) = console w.
Proof. intros H. destruct a; step; congruence. Qed.

(** X8.  Nothing is written to the console without [debug]: along any
    run from a world whose flag is off the console stays as it is, and
    an object constructed without [debug], or with [debug] false, never
    writes a line. *)
Theorem console_is_silent_without_debug
        (cfg : SDKConfig) (rnd : string) (now : Z) (p : Page)
        (acts : list Action) :
  (forall w, debug (this w) = false -> console (run' acts w) = console w)
  /\ (or_false (cfg_debug cfg) = false ->
      console (run' acts (snd (new' cfg rnd now p))) = []).
Proof.
  assert (G : forall w, debug (this w) = false ->
                        console (run' acts w) = console w).
  { induction acts as [| a l IH]; intros w H; simpl; [reflexivity |].
    rewrite IH.
    - now apply console_after.
    - destruct (identity_after a w) as (_ & _ & _ & E). congruence. }
  split; [exact G |].
  intros H. rewrite G.
  - rewrite new_spec.
    destruct (sanitizeDOM' (pageHTML p)); [destruct (hasBody p) |]; cbn;
      now rewrite H.
  - rewrite new_spec.
    destruct (sanitizeDOM' (pageHTML p)); [destruct (hasBody p) |]; cbn;
      exact H.
Qed.

(** *** After [stop] *)

Lemma requests_without_timer (a : Action) (w : World) :
  intervals w = [] -> requests (after' a w) = requests w.
Proof.
  intros H.
  destruct (requests_after a w) as [E | ((h & _ & Hh) & _ & _)];
    [exact E |].
  rewrite H in Hh. discriminate.
Qed.

Lemma settles_without_timer (a : Action) (w : World) :
  intervals w = [] ->
  incl (delivered (after' a w) ++ in_flight (after' a w))
       (delivered w ++ in_flight w).
Proof.
  intros H. unfold in_flight.
  destruct a;
    try (unfold_methods; cbn; rewrite H; cbn; apply incl_refl);
    step; try apply incl_refl.
  all: match goal with
       | T : take_suspended _ _ _ = Some _ |- _ =>
           destruct (take_suspended_split _ _ _ _ _ T)
             as (l1 & l2 & E1 & E2 & _ & _); rewrite E1, E2
       end.
  all: rewrite ?map_app, ?concat_app; cbn; rewrite ?app_nil_r.
  all: intros e He; repeat rewrite in_app_iff in *; tauto.
Qed.

(** X9.  Once [stop] has been called on a constructed object, no request
    is ever issued again, and nothing is delivered but what was already
    delivered or in flight at that time: what is queued then, or captured
    later, stays in the queue. *)
Theorem nothing_is_sent_after_stop
        (cfg : SDKConfig) (rnd : string) (now : Z) (p : Page)
        (acts1 acts2 : list Action) :
  let w := after' Stop (run' acts1 (snd (new' cfg rnd now p))) in
  requests (run' acts2 w) = requests w
  /\ incl (delivered (run' acts2 w)) (delivered w ++ in_flight w).
Proof.
  intros w.
  assert (Hno : intervals w = []).
  { subst w. apply stop_leaves_no_timer.
    apply (run_invariant parseFromString outerHTML owned_timer);
      [intros a x; apply owned_timer_after | apply new_owned_timer]. }
  clearbody w.
  assert (G : forall l x,
             intervals x = [] ->
             requests (run' l x) = requests x
             /\ incl (delivered (run' l x) ++ in_flight (run' l x))
                     (delivered x ++ in_flight x)).
  { induction l as [| a l IH]; intros x Hx; simpl.
    - split; [reflexivity | apply incl_refl].
    - destruct (IH (after' a x) (no_timer_after _ _ a x Hx)) as [E I].
      split.
      + rewrite E. now apply requests_without_timer.
      + eapply incl_tran; [exact I | now apply settles_without_timer]. }
  destruct (G acts2 w Hno) as [E I]. split; [exact E |].
  intros e He. apply I. apply in_app_iff. now left.
Qed.

(** *** Timestamps *)

(** The clock is not set back in the turn [a] from [w]. *)
Local Abbreviation forward a w :=
  (match a with
   | Tick t => (clock w <=? t)%Z
   | MouseMoveLate _ _ stamp => (clock w <=? stamp)%Z
   | ScrollLate stamp => (clock w <=? stamp)%Z
   | _ => true
   end).

Lemma stamps_of_a_turn (a : Action) (w : World) :
  forward a w = true ->
  clock w <= clock (after' a w)
  /\ (forall e, In e (during' [a] w) ->
                clock w <= timestamp e <= clock (after' a w))
  /\ (List.length (during' [a] w) <= 1)%nat.
Proof.
  intros Ha.
  destruct a; try apply Z.leb_le in Ha; added;
    (split; [lia |
     split; [let ev := fresh "ev" in
             let He := fresh "He" in
             intros ev He; repeat (destruct He as [<- | He]);
             try contradiction; cbn; lia
            | lia]]).
Qed.

Lemma sorted_app (l1 l2 : list Z) :
  StronglySorted Z.le l1 -> StronglySorted Z.le l2 ->
  (forall x y, In x l1 -> In y l2 -> x <= y) ->
  StronglySorted Z.le (l1 ++ l2).
Proof.
  induction 1 as [| a l Hl IH Ha]; intros H2 H; simpl; [exact H2 |].
  constructor.
  - apply IH; [exact H2 |]. intros x y Hx Hy. apply H; [now right | exact Hy].
  - apply Forall_app. split; [exact Ha |].
    apply Forall_forall. intros y Hy. apply H; [now left | exact Hy].
Qed.

Lemma short_sorted (l : list Z) :
  (List.length l <= 1)%nat -> StronglySorted Z.le l.
Proof.
  destruct l as [| a [| b l]]; simpl; intros H.
  - constructor.
  - constructor; constructor.
  - lia.
Qed.

(** X10.  Events are stamped with the clock at capture.  So along a run in
    which the clock is never set back, the events captured come in the
    order of their timestamps, all between the clock at the start and the
    clock at the end. *)
Theorem timestamps_follow_the_clock (acts : list Action) (w : World) :
  clock_never_goes_back parseFromString outerHTML acts w = true ->
  StronglySorted Z.le (map timestamp (during' acts w))
  /\ Forall (fun e => clock w <= timestamp e <= clock (run' acts w))
            (during' acts w)
  /\ clock w <= clock (run' acts w).
Proof.
  revert w. induction acts as [| a acts IH]; intros w H.
  - rewrite during_nil. simpl. split; [constructor | split; [constructor | lia]].
  - simpl in H. apply andb_true_iff in H. destruct H as [Ha H].
    destruct (IH (after' a w) H) as (Hs & Hf & Hc).
    destruct (stamps_of_a_turn a w Ha) as (Hstep & Hturn & Hlen).
    change (run' (a :: acts) w) with (run' acts (after' a w)).
    rewrite during_cons, map_app. split; [| split].
    + apply sorted_app; [| exact Hs |].
      * apply short_sorted. now rewrite length_map.
      * intros x y Hx Hy.
        apply in_map_iff in Hx. destruct Hx as (e & <- & He).
        apply in_map_iff in Hy. destruct Hy as (e' & <- & He').
        apply Hturn in He.
        rewrite Forall_forall in Hf. specialize (Hf e' He'). lia.
    + apply Forall_app. split.
      * apply Forall_forall. intros e He.
        apply Hturn in He. lia.
      * eapply Forall_impl; [| exact Hf]. simpl. intros e He. lia.
    + lia.
Qed.

(** *** A constructor that throws *)

Lemma unobserved_after (a : Action) (w : World) :
  observing w = false -> timeouts w = [] ->
  timeouts (after' a w) = []
  /\ filter (of_type "domSnapshot") (during' [a] w) = [].
Proof.
  intros Ho Ht. unfold captured_during.
  change (run' [a] w) with (after' a w).
  destruct a; unfold_methods; cbn; rewrite ?Ho, ?Ht; unfold has_handle; cbn;
    repeat (break_match; cbn; use_debug);
    rewrite ?skipn_length_app, ?skipn_all; cbn; auto.
Qed.

Lemma unobserved_run (acts : list Action) (w : World) :
  observing w = false -> timeouts w = [] ->
  filter (of_type "domSnapshot") (during' acts w) = [].
Proof.
  revert w. induction acts as [| a acts IH]; intros w Ho Ht.
  - now rewrite during_nil.
  - destruct (unobserved_after a w Ho Ht) as [Ht' Hn].
    rewrite during_cons, filter_app, Hn, IH; auto.
    now rewrite observing_after.
Qed.

(** X11.  When the document has no body yet, the constructor throws at
    [observer.observe], after everything else is done: both initial events
    are queued, the listeners are installed and the flush interval is
    live, and the interval sends the queue when it fires.  The observer
    is never attached, so no snapshot is taken again, whatever happens. *)
Theorem construction_without_body_leaves_a_live_session
        (cfg : SDKConfig) (rnd : string) (now : Z) (p : Page) (c : string)
        (acts : list Action) :
  sanitizeDOM' (pageHTML p) = Normal c -> hasBody p = false ->
  let w := snd (new' cfg rnd now p) in
  (exists e, fst (new' cfg rnd now p) = Throw e)
  /\ events (this w) = [snapshot_event c now p; scroll_event now p]
  /\ isRunning (this w) = true
  /\ intervals w = [(1, 1000)]
  /\ listeners w = ["mousemove"; "click"; "scroll"]
  /\ observing (run' acts w) = false
  /\ filter (of_type "domSnapshot") (during' acts w) = []
  /\ exists rq, requests (after' (IntervalFires 1) w) = [rq]
                /\ rq_events rq = [snapshot_event c now p; scroll_event now p].
Proof.
  intros Hs Hb w.
  assert (E : new' cfg rnd now p
              = (Throw "TypeError: parameter 1 is not of type 'Node'",
                 constructed cfg rnd now p
                   [snapshot_event c now p; scroll_event now p] false
                   (startup_lines ++ [capture_line; capture_line]))).
  { rewrite new_spec, Hs. cbv zeta. now rewrite Hb. }
  subst w. rewrite E. cbn [fst snd].
  split; [eexists; reflexivity |].
  split; [reflexivity |]. split; [reflexivity |]. split; [reflexivity |].
  split; [reflexivity |].
  split; [now rewrite observing_run |].
  split; [now apply unobserved_run |].
  unfold_methods. cbn. eexists. split; reflexivity.
Qed.

(** *** The scroll throttle *)

(** X12.  A scroll signal that comes more than 100 ms after the last
    captured one is captured with the scroll position of that moment; one
    that comes earlier changes nothing.  The scroll event the constructor
    captures does not count as the last captured one: a scroll signal
    right after construction is captured too, in the same millisecond. *)
Theorem scroll_throttle_and_the_initial_scroll
        (cfg : SDKConfig) (rnd : string) (now : Z) (p : Page) :
  (forall w, listens "scroll" w = true ->
             clock w - lastScrollTime (this w) > 100 ->
             events (this (after' Scroll w))
             = events (this w) ++ [scroll_event (clock w) (page w)]
             /\ lastScrollTime (this (after' Scroll w)) = clock w)
  /\ (forall w, clock w - lastScrollTime (this w) <= 100 ->
                after' Scroll w = w)
  /\ (fst (new' cfg rnd now p) = Normal tt -> now > 100 ->
      let w := after' Scroll (snd (new' cfg rnd now p)) in
      filter (of_type "scroll") (events (this w))
      = [scroll_event now p; scroll_event now p]
      /\ count_in_window "scroll" now 100 (events (this w)) = 2%nat).
Proof.
  split; [| split].
  - intros w Hl Hgap. unfold_methods. cbn. rewrite Hl. cbn.
    replace (clock w - lastScrollTime (this w) >? 100)%Z with true
      by (symmetry; apply Z.gtb_lt; lia).
    cbn. auto.
  - intros w Hgap. unfold_methods. cbn.
    destruct (listens "scroll" w); cbn; [| reflexivity].
    replace (clock w - lastScrollTime (this w) >? 100)%Z with false;
      [reflexivity |].
    symmetry. rewrite Z.gtb_ltb. apply Z.ltb_ge. lia.
  - intros Hnew Hnow.
    destruct (new_normal _ _ cfg rnd now p Hnew) as (c & _ & _ & E).
    rewrite E. cbv zeta.
    rewrite scroll_captured; [| reflexivity | cbn; lia].
    cbn. split; [reflexivity |].
    unfold count_in_window, in_window. cbn.
    replace (now <=? now)%Z with true by (symmetry; apply Z.leb_le; lia).
    replace (now <=? now + 100)%Z with true by (symmetry; apply Z.leb_le; lia).
    reflexivity.
Qed.

End Further.

(* ================================================================= *)
(** ** The earlier variant *)

Ltac unfold_earlier :=
  unfold Earlier.after, Earlier.fire, Earlier.onMouseMove, Earlier.onClick,
    Earlier.onScroll, Earlier.captureEvent, Earlier.sendEvents,
    Earlier.sendEvents_afterFetch, Earlier.console_error, fetch, Date_now,
    try_catch, bind, ret, gets, modify, throw, lift.

Lemma length_snoc_is_not_zero {A : Type} (l : list A) (x : A) :
  Nat.eqb (List.length (l ++ [x])) 0 = false.
Proof. rewrite length_app. simpl. apply Nat.eqb_neq. lia. Qed.

(** A turn of the variant captures nothing and sends nothing, or it
    captures one event and sends the queue with it. *)
Lemma earlier_turn (a : Earlier.Action) (w : World) :
  (captured (Earlier.after a w) = captured w
   /\ requests (Earlier.after a w) = requests w)
  \/ exists e rq,
       captured (Earlier.after a w) = captured w ++ [e]
       /\ requests (Earlier.after a w) = requests w ++ [rq]
       /\ rq_events rq = events (this w) ++ [e]
       /\ events (this (Earlier.after a w)) = [].
Proof.
  destruct a; unfold_earlier; cbn;
    rewrite ?length_snoc_is_not_zero; cbn;
    repeat (break_match; cbn; rewrite ?length_snoc_is_not_zero; cbn);
    auto;
    right; eexists; eexists; repeat split; reflexivity.
Qed.

(** X14.  In the earlier variant every captured event leaves at once: a
    turn that captures an event issues exactly one request, which carries
    the queue with the new event at its end, and leaves the queue empty;
    no other turn issues a request.  Along any run there are as many new
    requests as captured events. *)
Theorem earlier_variant_sends_on_every_capture
        (acts : list Earlier.Action) (w : World) :
  (forall a x,
     (captured (Earlier.after a x) = captured x
      /\ requests (Earlier.after a x) = requests x)
     \/ exists e rq,
          captured (Earlier.after a x) = captured x ++ [e]
          /\ requests (Earlier.after a x) = requests x ++ [rq]
          /\ rq_events rq = events (this x) ++ [e]
          /\ events (this (Earlier.after a x)) = [])
  /\ (List.length (requests (Earlier.run acts w))
      + List.length (captured w)
      = List.length (requests w)
        + List.length (captured (Earlier.run acts w)))%nat.
Proof.
  split; [intros a x; apply earlier_turn |].
  revert w. induction acts as [| a acts IH]; intros w; simpl; [lia |].
  specialize (IH (Earlier.after a w)).
  destruct (earlier_turn a w) as [[E1 E2] | (e & rq & E1 & E2 & _)];
    rewrite E1, E2 in IH; rewrite ?length_app in IH; simpl in IH; lia.
Qed.

(** X15.  In the earlier variant [sendEvents] looks at no status: when
    the request is answered, with whatever status, the batch is not put
    back and the console stays silent, so a batch answered with an error
    status is gone.  Only a rejected [fetch] puts the batch back at the
    head of the queue, and then one line is written to the console,
    which no flag guards. *)
Theorem earlier_variant_ignores_the_status
        (id : nat) (w : World) (act : Suspended) (rest : list Suspended) :
  take_suspended id AwaitingFetch (suspended w) = Some (act, rest) ->
  (forall ok status,
     let w' := Earlier.after (Earlier.FetchSettles id (Response ok status)) w in
     events (this w') = events (this w)
     /\ suspended w' = rest
     /\ requests w' = requests w
     /\ console w' = console w)
  /\ (let w' := Earlier.after (Earlier.FetchSettles id Rejected) w in
      events (this w') = eventsToSend act ++ events (this w)
      /\ suspended w' = rest
      /\ requests w' = requests w
      /\ console w' = console w ++ ["Failed to send events: "]).
Proof.
  intros T. split.
  - intros ok status. cbv zeta. unfold_earlier. cbn. rewrite T. cbn. auto.
  - cbv zeta. unfold_earlier. cbn. rewrite T. cbn. auto.
Qed.

(* ================================================================= *)
(** ** The further properties at work *)

(** A hidden field without a [value] attribute is given one. *)
Lemma hidden_field_gains_an_attribute :
  sanitize Demo.hidden_doc
  = [page_of [Element "input" [("type", "hidden"); ("value", "")] "" []]]
  /\ forallb (every_element sensitive_value_cleared) Demo.hidden_doc = false.
Proof. split; vm_compute; reflexivity. Qed.

Lemma clean_document_witness :
  forallb (every_element not_script) Demo.clean_doc = true
  /\ forallb (every_element no_handler_attribute) Demo.clean_doc = true
  /\ forallb (every_element sensitive_value_cleared) Demo.clean_doc = true
  /\ sanitize Demo.clean_doc = Demo.clean_doc.
Proof.
  assert (H1 : forallb (every_element not_script) Demo.clean_doc = true)
    by (vm_compute; reflexivity).
  assert (H2 : forallb (every_element no_handler_attribute) Demo.clean_doc
               = true) by (vm_compute; reflexivity).
  assert (H3 : forallb (every_element sensitive_value_cleared) Demo.clean_doc
               = true) by (vm_compute; reflexivity).
  split; [exact H1 |]. split; [exact H2 |]. split; [exact H3 |].
  exact (sanitize_leaves_a_clean_document_alone Demo.clean_doc H1 H2 H3).
Defined.

Lemma textarea_witness :
  "textarea" <> "input"
  /\ flat_map (values_of "textarea") (sanitize Demo.doc)
     = flat_map (values_of "textarea") (remove_scripts_doc Demo.doc).
Proof.
  assert (H : "textarea" <> "input") by discriminate.
  split; [exact H |].
  exact (sanitize_clears_no_value_but_an_input "textarea" Demo.doc H).
Defined.

Lemma debounce_witness :
  observing (Demo.play [] Demo.started) = true
  /\ timeouts (Demo.play (repeat Mutation 3) (Demo.play [] Demo.started))
     = [(nextHandle (Demo.play [] Demo.started) + Z.of_nat 2, 1000)].
Proof.
  assert (H : observing (Demo.play [] Demo.started) = true)
    by (vm_compute; reflexivity).
  split; [exact H |].
  exact (proj1 (proj2 (mutations_are_debounced
                         Demo.parse Demo.serialize Demo.config "0.abcdef"
                         Demo.start_time Demo.the_page []) 2%nat H)).
Defined.

Lemma request_witness :
  In Demo.first_request (requests (Demo.play [IntervalFires 1] Demo.started))
  /\ well_formed_request (this (Demo.play [IntervalFires 1] Demo.started))
       Demo.first_request.
Proof.
  assert (H : In Demo.first_request
                 (requests (Demo.play [IntervalFires 1] Demo.started)))
    by (vm_compute; left; reflexivity).
  split; [exact H |].
  exact (proj1 (every_request_is_well_formed
                  Demo.parse Demo.serialize Demo.config "0.abcdef"
                  Demo.start_time Demo.the_page [IntervalFires 1]
                  Demo.first_request H)).
Defined.

Lemma silent_console_witness :
  or_false (cfg_debug Demo.config) = false
  /\ console (Demo.play Demo.with_ticks Demo.started) = [].
Proof.
  assert (H : or_false (cfg_debug Demo.config) = false) by reflexivity.
  split; [exact H |].
  exact (proj2 (console_is_silent_without_debug
                  Demo.parse Demo.serialize Demo.config "0.abcdef"
                  Demo.start_time Demo.the_page Demo.with_ticks) H).
Defined.

Lemma timestamps_witness :
  clock_never_goes_back Demo.parse Demo.serialize Demo.with_ticks Demo.started
  = true
  /\ StronglySorted Z.le
       (map timestamp
            (captured_during Demo.parse Demo.serialize Demo.with_ticks
                             Demo.started)).
Proof.
  assert (H : clock_never_goes_back Demo.parse Demo.serialize Demo.with_ticks
                Demo.started = true) by (vm_compute; reflexivity).
  split; [exact H |].
  exact (proj1 (timestamps_follow_the_clock
                  Demo.parse Demo.serialize Demo.with_ticks Demo.started H)).
Defined.

Lemma no_body_witness :
  sanitizeDOM Demo.parse Demo.serialize (pageHTML Demo.page_without_body)
  = Normal Demo.sanitized_markup
  /\ hasBody Demo.page_without_body = false
  /\ intervals (snd (new_ReplaySDK Demo.parse Demo.serialize Demo.config
                       "0.abcdef" Demo.start_time Demo.page_without_body))
     = [(1, 1000)].
Proof.
  assert (Hs : sanitizeDOM Demo.parse Demo.serialize
                 (pageHTML Demo.page_without_body)
               = Normal Demo.sanitized_markup) by (vm_compute; reflexivity).
  assert (Hb : hasBody Demo.page_without_body = false) by reflexivity.
  split; [exact Hs |]. split; [exact Hb |].
  exact (proj1 (proj2 (proj2 (proj2
           (construction_without_body_leaves_a_live_session
              Demo.parse Demo.serialize Demo.config "0.abcdef"
              Demo.start_time Demo.page_without_body Demo.sanitized_markup
              [] Hs Hb))))).
Defined.

Lemma initial_scroll_witness :
  fst (new_ReplaySDK Demo.parse Demo.serialize Demo.config "0.abcdef"
         Demo.start_time Demo.the_page) = Normal tt
  /\ Demo.start_time > 100
  /\ count_in_window "scroll" Demo.start_time 100
       (events (this (after Demo.parse Demo.serialize Scroll Demo.started)))
     = 2%nat.
Proof.
  assert (H : fst (new_ReplaySDK Demo.parse Demo.serialize Demo.config
                     "0.abcdef" Demo.start_time Demo.the_page) = Normal tt)
    by (vm_compute; reflexivity).
  assert (Hn : Demo.start_time > 100) by (vm_compute; reflexivity).
  split; [exact H |]. split; [exact Hn |].
  exact (proj2 (proj2 (proj2 (scroll_throttle_and_the_initial_scroll
                                Demo.parse Demo.serialize Demo.config
                                "0.abcdef" Demo.start_time Demo.the_page))
                  H Hn)).
Defined.

Lemma delivered_witness :
  In (scroll_event Demo.start_time Demo.the_page)
     (delivered (Demo.play Demo.acknowledged_send Demo.started))
  /\ In (scroll_event Demo.start_time Demo.the_page)
        (captured (Demo.play Demo.acknowledged_send Demo.started)).
Proof.
  assert (H : In (scroll_event Demo.start_time Demo.the_page)
                 (delivered (Demo.play Demo.acknowledged_send Demo.started)))
    by (vm_compute; right; left; reflexivity).
  split; [exact H |].
  exact (proj2 (what_is_delivered_was_sent
                  Demo.parse Demo.serialize Demo.config "0.abcdef"
                  Demo.start_time Demo.the_page Demo.acknowledged_send
                  (scroll_event Demo.start_time Demo.the_page) H)).
Defined.

Lemma earlier_status_witness :
  take_suspended 0 AwaitingFetch (suspended EarlierDemo.clicked)
  = Some (EarlierDemo.batch, [])
  /\ events (this (Earlier.after
                     (Earlier.FetchSettles 0 (Response false 500))
                     EarlierDemo.clicked))
     = events (this EarlierDemo.clicked).
Proof.
  assert (H : take_suspended 0 AwaitingFetch (suspended EarlierDemo.clicked)
              = Some (EarlierDemo.batch, [])) by (vm_compute; reflexivity).
  split; [exact H |].
  exact (proj1 (proj1 (earlier_variant_ignores_the_status
                         0 EarlierDemo.clicked EarlierDemo.batch [] H)
                  false 500)).
Defined.
